(** * dnscodec: response validation, answer extraction and query padding

    A shallow embedding of [response.go] and of the query builder of the
    [dnscodec] package, with the properties of its specification.

    Strings are Go strings, that is sequences of bytes: [string] is a list of
    [ascii] and every [ascii] is one octet.  The 16-bit fields of a message
    (identifier, class, type, flags) are integers in [Z].  The functions of
    the DNS message library and of the IDNA library that the package calls
    are either section variables (the theorems then hold whatever the library
    does) or small models kept in the module [dns]. *)

From Stdlib Require Import ZArith Lia Bool List String Ascii.
From Stdlib Require Import Strings.Byte.
From stdpp Require Import gmap strings list.
Import ListNotations.

Local Open Scope string_scope.
Local Open Scope Z_scope.

(** ** Errors and results *)

(** The sentinel errors of the package.  [ErrServerMisbehaving] and
    [ErrServerTemporarilyMisbehaving] carry the same message in Go but are
    distinct values, hence distinct constructors.  [ErrExternal] stands for
    an error made by a library the package calls (the IDNA encoder). *)
Inductive error : Type :=
| ErrInvalidQuery
| ErrCannotUnmarshalMessage
| ErrInvalidResponse
| ErrNoName
| ErrServerMisbehaving
| ErrServerTemporarilyMisbehaving
| ErrNoData
| ErrExternal (what : string).

(** A Go pair [(value, error)] of which exactly one component is meaningful. *)
Inductive result (A : Type) : Type :=
| Ok (a : A)
| Err (e : error).

Arguments Ok {A} a.
Arguments Err {A} e.

(** ** The message structure shared with the DNS library *)

Module Question.
Record t : Type := mk { Name : string; Qtype : Z; Qclass : Z }.
End Question.

Module RR_Header.
Record t : Type := mk { Name : string; Rrtype : Z; Class : Z; Ttl : Z }.
End RR_Header.

(** [net.IP] is a slice of bytes. *)
Definition IP : Type := list byte.

(** A resource record is a Go interface value; the package inspects its
    dynamic type with a type switch, so the payload is a tagged variant.  The
    tag is independent of the [Rrtype] field of the header. *)
Inductive RR : Type :=
| RR_A (Hdr : RR_Header.t) (A : IP)
| RR_AAAA (Hdr : RR_Header.t) (AAAA : IP)
| RR_CNAME (Hdr : RR_Header.t) (Target : string)
| RR_Other (Hdr : RR_Header.t).

Definition Header (rr : RR) : RR_Header.t :=
  match rr with
  | RR_A h _ | RR_AAAA h _ | RR_CNAME h _ | RR_Other h => h
  end.

(** An EDNS(0) option: its code and its data.  Padding has code 12. *)
Module EDNS0.
Record t : Type := mk { Code : Z; Data : list byte }.
End EDNS0.

Definition EDNS0_PADDING (Padding : list byte) : EDNS0.t :=
  EDNS0.mk 12 Padding.

(** The OPT pseudo-record of the additional section. *)
Module OPT.
Record t : Type := mk { UDPSize : Z; Do : bool; Option : list EDNS0.t }.
End OPT.

Module Msg.
Record t : Type := mk {
  Id : Z;
  Response : bool;
  Authoritative : bool;
  RecursionDesired : bool;
  RecursionAvailable : bool;
  Rcode : Z;
  Question : list Question.t;
  Answer : list RR;
  Extra : list OPT.t
}.
End Msg.

(** ** The parts of the DNS library that are modelled *)

Module dns.

Definition RcodeSuccess : Z := 0.
Definition RcodeServerFailure : Z := 2.
Definition RcodeNameError : Z := 3.
Definition RcodeRefused : Z := 5.

Definition ClassINET : Z := 1.
Definition ClassCHAOS : Z := 3.

Definition TypeA : Z := 1.
Definition TypeCNAME : Z := 5.
Definition TypeAAAA : Z := 28.

(** The numeric value of one byte of a string. *)
Definition byteval (a : ascii) : Z := Z.of_N (N_of_ascii a).

Fixpoint leadingBackslashes (l : list ascii) : nat :=
  match l with
  | a :: l' => if Ascii.eqb a "\"%char then S (leadingBackslashes l') else O
  | [] => O
  end.

(** A name is fully qualified when it ends with a dot that is not escaped,
    that is, preceded by an even number of backslashes. *)
Definition IsFqdn (s : string) : bool :=
  match rev (list_ascii_of_string s) with
  | a :: before =>
      Ascii.eqb a "."%char && Nat.even (leadingBackslashes before)
  | [] => false
  end.

Definition Fqdn (s : string) : string :=
  if IsFqdn s then s else String.append s ".".

Definition lowerByte (a : ascii) : ascii :=
  let v := byteval a in
  if (65 <=? v) && (v <=? 90) then ascii_of_N (Z.to_N (v + 32)) else a.

Fixpoint mapBytes (f : ascii -> ascii) (s : string) : string :=
  match s with
  | EmptyString => EmptyString
  | String a s' => String (f a) (mapBytes f s')
  end.

Definition inRange (lo hi : Z) (a : ascii) : bool :=
  (lo <=? byteval a) && (byteval a <=? hi).

(** The leading bytes of UTF-8, as the decoder of the Go library tabulates
    them: the size of the sequence a byte from [0xC2] on starts and the
    range accepted for its second byte.  Size 0 is for the bytes that start
    no sequence ([0x80]-[0xC1] and [0xF5]-[0xFF]). *)
Definition leading (v : Z) : nat * (Z * Z) :=
  if (194 <=? v) && (v <=? 223) then (2%nat, (128, 191))
  else if v =? 224 then (3%nat, (160, 191))
  else if (225 <=? v) && (v <=? 236) then (3%nat, (128, 191))
  else if v =? 237 then (3%nat, (128, 159))
  else if (238 <=? v) && (v <=? 239) then (3%nat, (128, 191))
  else if v =? 240 then (4%nat, (144, 191))
  else if (241 <=? v) && (v <=? 243) then (4%nat, (128, 191))
  else if v =? 244 then (4%nat, (128, 143))
  else (0%nat, (0, 0)).

(** The width of the rune at the head of a string, as [range] over a
    string decodes it: 1 for an ASCII byte, 2 to 4 for a well-formed
    sequence, and 0 when the head byte starts no well-formed sequence (the
    decoder then yields the replacement rune and advances by one byte). *)
Definition runeWidth (s : string) : nat :=
  match s with
  | EmptyString => 0%nat
  | String s0 t =>
      if byteval s0 <? 128 then 1%nat
      else
        match leading (byteval s0), t with
        | (2%nat, (lo, hi)), String s1 _ =>
            if inRange lo hi s1 then 2%nat else 0%nat
        | (3%nat, (lo, hi)), String s1 (String s2 _) =>
            if inRange lo hi s1 && inRange 128 191 s2 then 3%nat else 0%nat
        | (4%nat, (lo, hi)), String s1 (String s2 (String s3 _)) =>
            if inRange lo hi s1 && inRange 128 191 s2 && inRange 128 191 s3
            then 4%nat else 0%nat
        | _, _ => 0%nat
        end
  end.

(** The UTF-8 encoding of the replacement rune U+FFFD: [EF BF BD]. *)
Definition RuneError : string :=
  String (ascii_of_N 239) (String (ascii_of_N 191)
    (String (ascii_of_N 189) EmptyString)).

(** [strings.Map] with the mapping of [CanonicalName], which turns the
    runes [A]-[Z] into [a]-[z] and keeps every other rune: an ASCII byte is
    mapped, a well-formed sequence is copied, and a byte that starts no
    well-formed sequence is replaced by the encoding of U+FFFD. *)
Fixpoint lowerRunes (s : string) : string :=
  match s with
  | EmptyString => EmptyString
  | String s0 t =>
      match runeWidth (String s0 t), t with
      | 1%nat, _ => String (lowerByte s0) (lowerRunes t)
      | 2%nat, String s1 t1 => String s0 (String s1 (lowerRunes t1))
      | 3%nat, String s1 (String s2 t2) =>
          String s0 (String s1 (String s2 (lowerRunes t2)))
      | 4%nat, String s1 (String s2 (String s3 t3)) =>
          String s0 (String s1 (String s2 (String s3 (lowerRunes t3))))
      | _, _ => String.append RuneError (lowerRunes t)
      end
  end.

(** [utf8.ValidString]: every rune of the string is well formed. *)
Fixpoint ValidString (s : string) : bool :=
  match s with
  | EmptyString => true
  | String s0 t =>
      match runeWidth (String s0 t), t with
      | 1%nat, _ => ValidString t
      | 2%nat, String _ t1 => ValidString t1
      | 3%nat, String _ (String _ t2) => ValidString t2
      | 4%nat, String _ (String _ (String _ t3)) => ValidString t3
      | _, _ => false
      end
  end.

(** The canonical form of a name: fully qualified, with the runes [A]-[Z]
    in lower case. *)
Definition CanonicalName (s : string) : string :=
  lowerRunes (Fqdn s).

(** [Msg.SetEdns0]: append an OPT record without options. *)
Definition SetEdns0 (m : Msg.t) (udpsize : Z) (do : bool) : Msg.t :=
  Msg.mk (Msg.Id m) (Msg.Response m) (Msg.Authoritative m)
         (Msg.RecursionDesired m) (Msg.RecursionAvailable m) (Msg.Rcode m)
         (Msg.Question m) (Msg.Answer m)
         (Msg.Extra m ++ [OPT.mk udpsize do []])%list.

(** [Msg.IsEdns0]: the last OPT record of the additional section, if any. *)
Definition IsEdns0 (m : Msg.t) : option OPT.t := last (Msg.Extra m).

End dns.

(** The uncompressed wire size of a query message: a 12-octet header, each
    question (the name, one octet per presentation byte plus the leading
    length octet for a fully-qualified name without escapes, then type and
    class), and each OPT record (root name, type, class, TTL and data length:
    11 octets) followed by its options, each a 4-octet header and its data.
    It is used to run the query builder on concrete queries. *)
Module wire.

Definition nameLen (s : string) : Z :=
  if String.eqb s "." then 1 else Z.of_nat (String.length s) + 1.

Definition questionLen (q : Question.t) : Z := nameLen (Question.Name q) + 4.

Definition optionLen (o : EDNS0.t) : Z := 4 + Z.of_nat (length (EDNS0.Data o)).

Definition sumZ {A : Type} (f : A -> Z) (l : list A) : Z :=
  fold_right (fun a acc => f a + acc) 0 l.

Definition optLen (o : OPT.t) : Z := 11 + sumZ optionLen (OPT.Option o).

Definition Len (m : Msg.t) : Z :=
  12 + sumZ questionLen (Msg.Question m) + sumZ optLen (Msg.Extra m).

End wire.

(** ** The ASCII name comparator *)

(** [a += 0x20] on a byte in ['A', 'Z']; byte arithmetic wraps at 256. *)
Definition foldByte (a : Z) : Z :=
  if (65 <=? a) && (a <=? 90) then (a + 32) mod 256 else a.

(** The loop of [responseEqualASCIIName]: both strings have the same length
    when it runs, so [x[i]] and [y[i]] are consumed together. *)
Fixpoint equalASCIILoop (x y : string) : bool :=
  match x, y with
  | String a x', String b y' =>
      if negb (foldByte (dns.byteval a) =? foldByte (dns.byteval b))
      then false
      else equalASCIILoop x' y'
  | _, _ => true
  end.

Definition responseEqualASCIIName (x y : string) : bool :=
  if negb (String.length x =? String.length y)%nat then false
  else equalASCIILoop x y.

(** ** Structural validation of a response *)

Definition ValidateResponseForQuery (query resp : Msg.t) : result Question.t :=
  (* 1. the message is a response *)
  if negb (Msg.Response resp) then Err ErrInvalidResponse else
  (* 2. the identifiers match *)
  if negb (Msg.Id resp =? Msg.Id query) then Err ErrInvalidResponse else
  (* 3. each message has one question *)
  if negb (length (Msg.Question query) =? 1)%nat then Err ErrInvalidQuery else
  if negb (length (Msg.Question resp) =? 1)%nat then Err ErrInvalidResponse else
  match Msg.Question resp, Msg.Question query with
  | resp0 :: _, query0 :: _ =>
      (* 4. the questions agree *)
      if negb (responseEqualASCIIName (Question.Name resp0) (Question.Name query0))
      then Err ErrInvalidResponse else
      if negb (Question.Qclass resp0 =? Question.Qclass query0)
      then Err ErrInvalidResponse else
      if negb (Question.Qtype resp0 =? Question.Qtype query0)
      then Err ErrInvalidResponse else
      Ok query0
  | _, _ =>
      (* indexing an empty list: excluded by the two length checks *)
      Err ErrInvalidResponse
  end.

(** ** Interpretation of the result code *)

(** [None] is Go's [nil] error. *)
Definition ResponseErrorFromRCODE (resp : Msg.t) : option error :=
  if Msg.Rcode resp =? dns.RcodeNameError then Some ErrNoName else
  if (Msg.Rcode resp =? dns.RcodeSuccess)
     && negb (Msg.Authoritative resp)
     && negb (Msg.RecursionAvailable resp)
     && (length (Msg.Answer resp) =? 0)%nat
  then Some ErrNoData else
  if negb (Msg.Rcode resp =? dns.RcodeSuccess) then
    if Msg.Rcode resp =? dns.RcodeServerFailure
    then Some ErrServerTemporarilyMisbehaving
    else Some ErrServerMisbehaving
  else None.

(** The lame referral of the specification: a success that is neither
    authoritative nor recursive and carries no answer. *)
Definition lameReferral (resp : Msg.t) : Prop :=
  Msg.Rcode resp = dns.RcodeSuccess /\ Msg.Authoritative resp = false
  /\ Msg.RecursionAvailable resp = false /\ Msg.Answer resp = [].

(** ** The response facade *)

Module Response.
Record t : Type := mk { Query : Msg.t; Response : Msg.t; ValidRRs : list RR }.
End Response.

(** The scan of [RecordFirstCNAME]: return at the first canonical-name
    record. *)
Fixpoint firstCNAMELoop (rrs : list RR) : result string :=
  match rrs with
  | RR_CNAME _ target :: _ => Ok target
  | _ :: rrs' => firstCNAMELoop rrs'
  | [] => Err ErrNoData
  end.

Definition RecordFirstCNAME (r : Response.t) : result string :=
  firstCNAMELoop (Response.ValidRRs r).

(** Modelled from the spec: [Response.RecordsCNAME] is exercised by the
    tests and named by the README, but its body is not part of the sources
    at hand.  The specification makes it one scan of the valid records, in
    order, that collects the target of every canonical-name record and fails
    with [ErrNoData] when nothing was collected, as its two siblings do. *)
Definition RecordsCNAME (r : Response.t) : result (list string) :=
  let out :=
    fold_left
      (fun out rr =>
         match rr with
         | RR_CNAME _ target => (out ++ [target])%list
         | _ => out
         end)
      (Response.ValidRRs r) [] in
  if (length out <? 1)%nat then Err ErrNoData else Ok out.

(** The payload of a record when it has the given variant. *)
Definition payloadA (rr : RR) : option IP :=
  match rr with RR_A _ a => Some a | _ => None end.

Definition payloadAAAA (rr : RR) : option IP :=
  match rr with RR_AAAA _ aaaa => Some aaaa | _ => None end.

Definition payloadCNAME (rr : RR) : option string :=
  match rr with RR_CNAME _ target => Some target | _ => None end.

(** What the chain walk asks of a record to follow it from the tip [tip]:
    a canonical-name record, owned by the tip up to letter case, in the
    class of the question. *)
Definition continuesChain (q0 : Question.t) (tip : string) (rr : RR) : Prop :=
  exists header target,
    rr = RR_CNAME header target
    /\ responseEqualASCIIName tip (RR_Header.Name header) = true
    /\ RR_Header.Class header = Question.Qclass q0.

(** ** Queries *)

Definition QueryFlagBlockLengthPadding : Z := 1.
Definition QueryFlagDNSSec : Z := 2.

Definition QueryMaxResponseSizeUDP : Z := 1232.
Definition QueryMaxResponseSizeTCP : Z := 4096.

Module Query.
Record t : Type := mk {
  Flags : Z;
  ID : Z;
  MaxSize : Z;
  Name : string;
  Type_ : Z
}.
End Query.

(** [NewQuery], with the random identifier supplied by the caller. *)
Definition NewQuery (id : Z) (name : string) (qtype : Z) : Query.t :=
  Query.mk 0 id QueryMaxResponseSizeUDP name qtype.

Definition Clone (q : Query.t) : Query.t :=
  Query.mk (Query.Flags q) (Query.ID q) (Query.MaxSize q) (Query.Name q)
           (Query.Type_ q).

(** Conversion of a Go [int] to [uint16]. *)
Definition uint16 (z : Z) : Z := z mod 65536.

Definition desiredSize : Z := 128.

(** [(desiredSize - uint16(msg.Len()+4)) % desiredSize], in [uint16]
    arithmetic: the subtraction wraps at 65536. *)
Definition paddingRemainder (msgLen : Z) : Z :=
  uint16 (desiredSize - uint16 (msgLen + 4)) mod desiredSize.

(** [msg.IsEdns0().Option = append(msg.IsEdns0().Option, opt)]: the option
    list of the last OPT record grows by [opt]. *)
Definition appendEdns0Option (m : Msg.t) (opt : EDNS0.t) : Msg.t :=
  match dns.IsEdns0 m with
  | Some o =>
      Msg.mk (Msg.Id m) (Msg.Response m) (Msg.Authoritative m)
             (Msg.RecursionDesired m) (Msg.RecursionAvailable m) (Msg.Rcode m)
             (Msg.Question m) (Msg.Answer m)
             (removelast (Msg.Extra m)
                ++ [OPT.mk (OPT.UDPSize o) (OPT.Do o) (OPT.Option o ++ [opt])])%list
  | None => m
  end.

(** The query with the block-length-padding bit of its flags cleared. *)
Definition withoutPadding (q : Query.t) : Query.t :=
  Query.mk (Z.land (Query.Flags q) 65534) (Query.ID q) (Query.MaxSize q)
           (Query.Name q) (Query.Type_ q).

(** ** Messages of the test suite

    The messages the tests of the package build, and a few more in their
    style, on which the operations are run further down. *)
Module Vectors.

Definition header (name : string) (rrtype : Z) : RR_Header.t :=
  RR_Header.mk name rrtype dns.ClassINET 0.

(** [net.IPv4(127, 0, 0, 1)]: the 16-byte form of an IPv4 address. *)
Definition loopback : IP :=
  [x00; x00; x00; x00; x00; x00; x00; x00; x00; x00; xff; xff;
   x7f; x00; x00; x01].

(** [net.IPv4(8, 8, 8, 8)]. *)
Definition publicResolver : IP :=
  [x00; x00; x00; x00; x00; x00; x00; x00; x00; x00; xff; xff;
   x08; x08; x08; x08].

(** [net.ParseIP("2001:db8::1")]. *)
Definition documentation6 : IP :=
  [x20; x01; x0d; xb8; x00; x00; x00; x00; x00; x00; x00; x00;
   x00; x00; x00; x01].

(** [SetQuestion name TypeA] on a new message with identifier [id]. *)
Definition question (id : Z) (name : string) : Msg.t :=
  Msg.mk id false false true false 0
         [Question.mk name dns.TypeA dns.ClassINET] [] [].

(** [SetReply] on a new message, for the query [query], then answers. *)
Definition reply (query : Msg.t) (answers : list RR) : Msg.t :=
  Msg.mk (Msg.Id query) true false (Msg.RecursionDesired query) false
         dns.RcodeSuccess (firstn 1 (Msg.Question query)) answers [].

Definition withRcode (m : Msg.t) (rcode : Z) : Msg.t :=
  Msg.mk (Msg.Id m) (Msg.Response m) (Msg.Authoritative m)
         (Msg.RecursionDesired m) (Msg.RecursionAvailable m) rcode
         (Msg.Question m) (Msg.Answer m) (Msg.Extra m).

Definition plainQuestion : Question.t :=
  Question.mk "example.com." dns.TypeA dns.ClassINET.

Definition plainAnswers : list RR :=
  [RR_A (header "example.com." dns.TypeA) loopback].

(** The chain of the test [ValidAnswerWithCNAME]. *)
Definition chainQuestion : Question.t :=
  Question.mk "example.co.uk." dns.TypeA dns.ClassINET.

Definition chainAnswers : list RR :=
  [RR_CNAME (header "example.co.uk." dns.TypeCNAME) "example.com.";
   RR_CNAME (header "example.com." dns.TypeCNAME) "example.org.";
   RR_A (header "example.org." dns.TypeA) loopback].

(** The chain of the test [ValidAnswerWithCNAMEMixedCase]. *)
Definition mixedQuestion : Question.t :=
  Question.mk "Example.CO.UK." dns.TypeA dns.ClassINET.

Definition mixedAnswers : list RR :=
  [RR_CNAME (header "eXample.co.uk." dns.TypeCNAME) "ExamPle.com.";
   RR_CNAME (header "example.COM." dns.TypeCNAME) "Example.ORG.";
   RR_A (header "eXaMpLe.org." dns.TypeA) loopback].

(** The answers of the tests [MismatchedName] and [MismatchedClass]. *)
Definition otherNameAnswers : list RR :=
  [RR_A (header "example.org." dns.TypeA) loopback].

Definition otherClassAnswers : list RR :=
  [RR_A (RR_Header.mk "example.com." dns.TypeA dns.ClassCHAOS 0) loopback].

(** A canonical-name record ahead of the record that leads to it. *)
Definition lateAnswers : list RR :=
  [RR_CNAME (header "example.org." dns.TypeCNAME) "example.net.";
   RR_CNAME (header "example.com." dns.TypeCNAME) "example.org.";
   RR_A (header "example.net." dns.TypeA) loopback].

(** A question whose name lacks the final dot, answered with qualified
    names. *)
Definition bareQuestion : Question.t :=
  Question.mk "example.com" dns.TypeA dns.ClassINET.

Definition bareAnswers : list RR :=
  [RR_CNAME (header "example.com." dns.TypeCNAME) "example.org.";
   RR_A (header "example.org." dns.TypeA) loopback].

(** The valid records of the tests of the projections. *)
Definition addresses : Response.t :=
  Response.mk (question 0 "example.com.") (question 0 "example.com.")
    [RR_A (header "example.com." dns.TypeA) loopback;
     RR_AAAA (header "example.com." dns.TypeAAAA) documentation6;
     RR_A (header "example.com." dns.TypeA) publicResolver].

Definition aliases : Response.t :=
  Response.mk (question 0 "www.example.com.") (question 0 "www.example.com.")
    [RR_CNAME (header "www.example.com." dns.TypeCNAME) "example.com.";
     RR_CNAME (header "example.com." dns.TypeCNAME) "example.net.";
     RR_A (header "example.net." dns.TypeA) loopback].

(** The query of the DNS-over-TLS example: both flags, identifier 37. *)
Definition tlsQuery : Query.t :=
  Query.mk (Z.lor QueryFlagBlockLengthPadding QueryFlagDNSSec) 37
           QueryMaxResponseSizeTCP "www.example.com" dns.TypeA.

(** An IDNA encoder for names that are ASCII already. *)
Definition asciiToASCII (name : string) : result string := Ok name.

End Vectors.

(** ** The operations that call into the libraries *)

Section Codec.

(** [dns.CanonicalName], the canonical form of a name. *)
Variable CanonicalName : string -> string.

(** [idna.Lookup.ToASCII], the IDNA encoder. *)
Variable ToASCII : string -> result string.

(** The method [Len] of [dns.Msg], the size of a message on the wire. *)
Variable Len : Msg.t -> Z.

(** [net.IP.String], the textual form of an address. *)
Variable IPString : IP -> string.

Definition responseCanonicalName (name : string) : string :=
  CanonicalName name.

(** Reading a Go [map[string]bool]: an absent key reads as [false]. *)
Definition validName (validNames : gmap string bool) (name : string) : bool :=
  default false (validNames !! name).

(** One iteration of the first loop of [ResponseExtractValidAnswers]; the
    state is the pair of [validNames] and [currentName]. *)
Definition chainStep (q0 : Question.t) (st : gmap string bool * string)
    (answer : RR) : gmap string bool * string :=
  let '(validNames, currentName) := st in
  match answer with
  | RR_CNAME header target =>
      if responseEqualASCIIName currentName (RR_Header.Name header)
         && (RR_Header.Class header =? Question.Qclass q0)
      then
        let currentName := responseCanonicalName target in
        (<[currentName := true]> validNames, currentName)
      else st
  | _ => st
  end.

Definition buildChain (q0 : Question.t) (answers : list RR)
    : gmap string bool * string :=
  fold_left (chainStep q0) answers
    (<[responseCanonicalName (Question.Name q0) := true]> ∅,
     Question.Name q0).

(** One iteration of the second loop. *)
Definition filterStep (q0 : Question.t) (validNames : gmap string bool)
    (valid : list RR) (answer : RR) : list RR :=
  let header := Header answer in
  if negb (validName validNames (responseCanonicalName (RR_Header.Name header)))
  then valid
  else if negb (Question.Qclass q0 =? RR_Header.Class header)
  then valid
  else (valid ++ [answer])%list.

Definition ResponseExtractValidAnswers (q0 : Question.t) (resp : Msg.t)
    : result (list RR) :=
  let validNames := fst (buildChain q0 (Msg.Answer resp)) in
  let valid := fold_left (filterStep q0 validNames) (Msg.Answer resp) [] in
  if (length valid <? 1)%nat then Err ErrNoData else Ok valid.

Definition ParseResponse (query resp : Msg.t) : result Response.t :=
  match ValidateResponseForQuery query resp with
  | Err err => Err err
  | Ok q0 =>
      match ResponseErrorFromRCODE resp with
      | Some err => Err err
      | None =>
          match ResponseExtractValidAnswers q0 resp with
          | Err err => Err err
          | Ok rrs => Ok (Response.mk query resp rrs)
          end
      end
  end.

Definition RecordsA (r : Response.t) : result (list string) :=
  let out :=
    fold_left
      (fun out rr =>
         match rr with
         | RR_A _ a => (out ++ [IPString a])%list
         | _ => out
         end)
      (Response.ValidRRs r) [] in
  if (length out <? 1)%nat then Err ErrNoData else Ok out.

Definition RecordsAAAA (r : Response.t) : result (list string) :=
  let out :=
    fold_left
      (fun out rr =>
         match rr with
         | RR_AAAA _ aaaa => (out ++ [IPString aaaa])%list
         | _ => out
         end)
      (Response.ValidRRs r) [] in
  if (length out <? 1)%nat then Err ErrNoData else Ok out.

Definition NewMsg (q : Query.t) : result Msg.t :=
  match ToASCII (Query.Name q) with
  | Err err => Err err
  | Ok punyName =>
      let punyName :=
        if negb (dns.IsFqdn punyName) then dns.Fqdn punyName else punyName in
      let question := Question.mk punyName (Query.Type_ q) dns.ClassINET in
      let msg :=
        Msg.mk (Query.ID q) false false true false 0 [question] [] [] in
      let msg :=
        dns.SetEdns0 msg (Query.MaxSize q)
          (negb (Z.land (Query.Flags q) QueryFlagDNSSec =? 0)) in
      let msg :=
        if negb (Z.land (Query.Flags q) QueryFlagBlockLengthPadding =? 0)
        then
          let remainder := paddingRemainder (Len msg) in
          let opt := EDNS0_PADDING (repeat x00 (Z.to_nat remainder)) in
          appendEdns0Option msg opt
        else msg in
      Ok msg
  end.

(** The test of the second loop as one predicate: the canonical form of
    the owner name is a valid name and the class is the class asked.  The
    variant of the record and its [Rrtype] play no part. *)
Definition validAnswer (q0 : Question.t) (validNames : gmap string bool)
    (rr : RR) : bool :=
  validName validNames (responseCanonicalName (RR_Header.Name (Header rr)))
  && (RR_Header.Class (Header rr) =? Question.Qclass q0).

(** *** The chain as the specification words it

    The specification starts the chain at the canonical form of the query
    name: that name is in the set and is the first tip.  [claimedWalk] walks
    the answers from a given set and tip. *)
Fixpoint claimedWalk (q0 : Question.t) (names : gmap string bool)
    (tip : string) (answers : list RR) : gmap string bool :=
  match answers with
  | [] => names
  | RR_CNAME header target :: rest =>
      if responseEqualASCIIName (RR_Header.Name header) tip
         && (RR_Header.Class header =? Question.Qclass q0)
      then claimedWalk q0 (<[CanonicalName target := true]> names)
                       (CanonicalName target) rest
      else claimedWalk q0 names tip rest
  | _ :: rest => claimedWalk q0 names tip rest
  end.

Definition claimedValidNames (q0 : Question.t) (answers : list RR)
    : gmap string bool :=
  claimedWalk q0 (<[CanonicalName (Question.Name q0) := true]> ∅)
              (CanonicalName (Question.Name q0)) answers.

(** ** Properties of the comparator *)

Lemma byteval_range (a : ascii) : 0 <= dns.byteval a < 256.
Proof.
  unfold dns.byteval. pose proof (N_ascii_bounded a). lia.
Qed.

Lemma foldByte_letter (a : Z) : 65 <= a <= 90 -> foldByte a = a + 32.
Proof.
  intros Ha. unfold foldByte.
  destruct (Z.leb_spec 65 a); [|lia].
  destruct (Z.leb_spec a 90); [|lia].
  simpl. apply Z.mod_small. lia.
Qed.

Lemma foldByte_other (a : Z) : ~ 65 <= a <= 90 -> foldByte a = a.
Proof.
  intros Ha. unfold foldByte.
  destruct (Z.leb_spec 65 a); destruct (Z.leb_spec a 90); simpl; try reflexivity.
  lia.
Qed.

(** Two bytes fold to the same value exactly when they are the same byte
    or the upper- and lower-case forms of one ASCII letter. *)
Lemma foldByte_eq_iff (a b : Z) :
  foldByte a = foldByte b <->
  a = b \/ (65 <= a <= 90 /\ b = a + 32) \/ (65 <= b <= 90 /\ a = b + 32).
Proof.
  destruct (Z_le_dec 65 a) as [Ha1|Ha1]; destruct (Z_le_dec a 90) as [Ha2|Ha2];
  destruct (Z_le_dec 65 b) as [Hb1|Hb1]; destruct (Z_le_dec b 90) as [Hb2|Hb2];
  try (rewrite (foldByte_letter a) by lia);
  try (rewrite (foldByte_other a) by lia);
  try (rewrite (foldByte_letter b) by lia);
  try (rewrite (foldByte_other b) by lia);
  lia.
Qed.

Lemma equalASCIILoop_iff (x : string) :
  forall y : string,
    String.length x = String.length y ->
    equalASCIILoop x y = true <->
    (forall (i : nat) (a b : ascii),
        String.get i x = Some a -> String.get i y = Some b ->
        foldByte (dns.byteval a) = foldByte (dns.byteval b)).
Proof.
  induction x as [|a x IH]; intros [|b y] Hlen; simpl in Hlen; try discriminate.
  - simpl. split; [|reflexivity]. intros _ i a b Hx. discriminate.
  - injection Hlen as Hlen. simpl.
    destruct (Z.eqb_spec (foldByte (dns.byteval a)) (foldByte (dns.byteval b)))
      as [Hab|Hab]; simpl.
    + rewrite (IH y Hlen). split.
      * intros H [|i] a' b' Ha' Hb'; simpl in Ha', Hb'.
        -- congruence.
        -- eapply H; eassumption.
      * intros H i a' b' Ha' Hb'. apply (H (S i)); assumption.
    + split; [discriminate|].
      intros H. exfalso. apply Hab. apply (H O); reflexivity.
Qed.

Lemma equalASCIILoop_refl (x : string) : equalASCIILoop x x = true.
Proof.
  induction x as [|a x IH]; simpl; [reflexivity|].
  rewrite Z.eqb_refl. exact IH.
Qed.

Lemma responseEqualASCIIName_refl (x : string) :
  responseEqualASCIIName x x = true.
Proof.
  unfold responseEqualASCIIName. rewrite Nat.eqb_refl. simpl.
  apply equalASCIILoop_refl.
Qed.

Lemma responseEqualASCIIName_length (x y : string) :
  responseEqualASCIIName x y = true -> String.length x = String.length y.
Proof.
  unfold responseEqualASCIIName.
  destruct (Nat.eqb_spec (String.length x) (String.length y)); simpl;
    [auto | discriminate].
Qed.

Lemma equalASCIILoop_sym (x : string) :
  forall y : string, equalASCIILoop x y = equalASCIILoop y x.
Proof.
  induction x as [|a x IH]; intros [|b y]; simpl; try reflexivity.
  rewrite (Z.eqb_sym (foldByte (dns.byteval a))). rewrite IH. reflexivity.
Qed.

Lemma responseEqualASCIIName_sym (x y : string) :
  responseEqualASCIIName x y = responseEqualASCIIName y x.
Proof.
  unfold responseEqualASCIIName.
  rewrite (Nat.eqb_sym (String.length x)). rewrite equalASCIILoop_sym.
  reflexivity.
Qed.

Lemma equalASCIILoop_trans (x : string) :
  forall y z : string,
    String.length x = String.length y ->
    equalASCIILoop x y = true -> equalASCIILoop y z = equalASCIILoop x z.
Proof.
  induction x as [|a x IH]; intros [|b y] [|c z] Hlen Hxy;
    simpl in *; try reflexivity; try discriminate.
  injection Hlen as Hlen.
  destruct (Z.eqb_spec (foldByte (dns.byteval a)) (foldByte (dns.byteval b)))
    as [Hab|Hab]; simpl in Hxy; [|discriminate].
  rewrite Hab. rewrite (IH y z Hlen Hxy). reflexivity.
Qed.

(** The comparator cannot tell apart two names it holds equal. *)
Lemma responseEqualASCIIName_trans (x y z : string) :
  responseEqualASCIIName x y = true ->
  responseEqualASCIIName y z = responseEqualASCIIName x z.
Proof.
  intros Hxy. pose proof (responseEqualASCIIName_length x y Hxy) as Hlen.
  unfold responseEqualASCIIName in *. rewrite Hlen in *.
  destruct (String.length y =? String.length z)%nat; simpl; [|reflexivity].
  rewrite Nat.eqb_refl in Hxy. simpl in Hxy.
  apply equalASCIILoop_trans; [|exact Hxy].
  apply Nat.eqb_eq. rewrite <- Hlen. apply Nat.eqb_refl.
Qed.

(** C7.  The comparator answers [false] when the lengths differ; on strings
    of one length it answers [true] exactly when, at every index, the two
    bytes are the same byte or the two cases of one letter of [A]-[Z] (every
    other byte, non-ASCII included, only equals itself); two empty strings
    are equal and the empty string differs from every other string. *)
Theorem responseEqualASCIIName_spec :
  (forall x y : string,
      String.length x <> String.length y ->
      responseEqualASCIIName x y = false) /\
  (forall x y : string,
      String.length x = String.length y ->
      (responseEqualASCIIName x y = true <->
       forall (i : nat) (a b : ascii),
         String.get i x = Some a -> String.get i y = Some b ->
         dns.byteval a = dns.byteval b
         \/ (65 <= dns.byteval a <= 90 /\ dns.byteval b = dns.byteval a + 32)
         \/ (65 <= dns.byteval b <= 90 /\ dns.byteval a = dns.byteval b + 32))) /\
  responseEqualASCIIName "" "" = true /\
  (forall y : string,
      y <> "" ->
      responseEqualASCIIName "" y = false /\ responseEqualASCIIName y "" = false).
Proof.
  split; [|split; [|split]].
  - intros x y Hlen. unfold responseEqualASCIIName.
    destruct (Nat.eqb_spec (String.length x) (String.length y)); simpl;
      [contradiction | reflexivity].
  - intros x y Hlen. unfold responseEqualASCIIName.
    rewrite Hlen, Nat.eqb_refl. simpl.
    rewrite (equalASCIILoop_iff x y Hlen). split.
    + intros H i a b Ha Hb. apply foldByte_eq_iff. eapply H; eassumption.
    + intros H i a b Ha Hb. apply foldByte_eq_iff. eapply H; eassumption.
  - reflexivity.
  - intros y Hy. destruct y; [contradiction | split; reflexivity].
Qed.

(** The three comparisons the specification lists. *)
Example responseEqualASCIIName_examples :
  responseEqualASCIIName "Example.COM." "exaMple.com." = true /\
  responseEqualASCIIName "example.co." "example.co.uk." = false /\
  responseEqualASCIIName "" "" = true.
Proof. repeat split. Qed.

(** ** Properties of the structural validator *)

Lemma length_one {A : Type} (l : list A) :
  length l = 1%nat -> exists a, l = [a].
Proof.
  destruct l as [|a [|b l]]; simpl; try discriminate. eauto.
Qed.

(** C4.  The checks run in a fixed order and the first failure decides the
    error: response flag, identifier, one question in the query
    ([ErrInvalidQuery]), one question in the response, then name, class and
    type of the two questions.  On success the question of the query is
    returned. *)
Theorem ValidateResponseForQuery_order (query resp : Msg.t) :
  (Msg.Response resp = false ->
   ValidateResponseForQuery query resp = Err ErrInvalidResponse) /\
  (Msg.Response resp = true ->
   Msg.Id resp <> Msg.Id query ->
   ValidateResponseForQuery query resp = Err ErrInvalidResponse) /\
  (Msg.Response resp = true ->
   Msg.Id resp = Msg.Id query ->
   length (Msg.Question query) <> 1%nat ->
   ValidateResponseForQuery query resp = Err ErrInvalidQuery) /\
  (Msg.Response resp = true ->
   Msg.Id resp = Msg.Id query ->
   length (Msg.Question query) = 1%nat ->
   length (Msg.Question resp) <> 1%nat ->
   ValidateResponseForQuery query resp = Err ErrInvalidResponse) /\
  (forall query0 resp0 : Question.t,
      Msg.Response resp = true ->
      Msg.Id resp = Msg.Id query ->
      Msg.Question query = [query0] ->
      Msg.Question resp = [resp0] ->
      (responseEqualASCIIName (Question.Name resp0) (Question.Name query0) = false
       \/ Question.Qclass resp0 <> Question.Qclass query0
       \/ Question.Qtype resp0 <> Question.Qtype query0) ->
      ValidateResponseForQuery query resp = Err ErrInvalidResponse) /\
  (forall query0 resp0 : Question.t,
      Msg.Response resp = true ->
      Msg.Id resp = Msg.Id query ->
      Msg.Question query = [query0] ->
      Msg.Question resp = [resp0] ->
      responseEqualASCIIName (Question.Name resp0) (Question.Name query0) = true ->
      Question.Qclass resp0 = Question.Qclass query0 ->
      Question.Qtype resp0 = Question.Qtype query0 ->
      ValidateResponseForQuery query resp = Ok query0).
Proof.
  unfold ValidateResponseForQuery.
  split; [|split; [|split; [|split; [|split]]]].
  - intros ->. reflexivity.
  - intros -> Hid. simpl.
    destruct (Z.eqb_spec (Msg.Id resp) (Msg.Id query)); [contradiction|].
    reflexivity.
  - intros -> -> Hq. simpl. rewrite Z.eqb_refl. simpl.
    destruct (Nat.eqb_spec (length (Msg.Question query)) 1); [contradiction|].
    reflexivity.
  - intros -> -> -> Hr. simpl. rewrite Z.eqb_refl. simpl.
    destruct (Nat.eqb_spec (length (Msg.Question resp)) 1); [contradiction|].
    reflexivity.
  - intros query0 resp0 -> -> -> -> Hbad. simpl. rewrite Z.eqb_refl. simpl.
    destruct (responseEqualASCIIName (Question.Name resp0) (Question.Name query0));
      simpl; [|reflexivity].
    destruct (Z.eqb_spec (Question.Qclass resp0) (Question.Qclass query0));
      simpl; [|reflexivity].
    destruct (Z.eqb_spec (Question.Qtype resp0) (Question.Qtype query0));
      simpl; [|reflexivity].
    destruct Hbad as [Hbad|[Hbad|Hbad]]; [discriminate | contradiction | contradiction].
  - intros query0 resp0 -> -> -> -> -> -> ->. simpl.
    rewrite !Z.eqb_refl. reflexivity.
Qed.

(** Whatever the validator returns, a returned question is the one of the
    query and a returned error is one of its two errors. *)
Lemma ValidateResponseForQuery_result (query resp : Msg.t) :
  match ValidateResponseForQuery query resp with
  | Ok q0 =>
      Msg.Question query = [q0] /\ Msg.Response resp = true
      /\ Msg.Id resp = Msg.Id query
      /\ exists resp0, Msg.Question resp = [resp0]
           /\ responseEqualASCIIName (Question.Name resp0) (Question.Name q0) = true
           /\ Question.Qclass resp0 = Question.Qclass q0
           /\ Question.Qtype resp0 = Question.Qtype q0
  | Err e => e = ErrInvalidResponse \/ e = ErrInvalidQuery
  end.
Proof.
  unfold ValidateResponseForQuery.
  destruct (Msg.Response resp); simpl; [|auto].
  destruct (Z.eqb_spec (Msg.Id resp) (Msg.Id query)); simpl; [|auto].
  destruct (Nat.eqb_spec (length (Msg.Question query)) 1) as [Hq|]; simpl; [|auto].
  destruct (Nat.eqb_spec (length (Msg.Question resp)) 1) as [Hr|]; simpl; [|auto].
  destruct (length_one _ Hq) as [query0 ->].
  destruct (length_one _ Hr) as [resp0 ->].
  destruct (responseEqualASCIIName (Question.Name resp0) (Question.Name query0))
    eqn:Hname; simpl; [|auto].
  destruct (Z.eqb_spec (Question.Qclass resp0) (Question.Qclass query0));
    simpl; [|auto].
  destruct (Z.eqb_spec (Question.Qtype resp0) (Question.Qtype query0));
    simpl; [|auto].
  repeat split; eauto 10.
Qed.

(** ** Properties of the result-code interpreter *)

(** C5.  Name-error gives [ErrNoName]; otherwise a lame referral gives
    [ErrNoData]; otherwise a code other than success gives
    [ErrServerTemporarilyMisbehaving] for server-failure and
    [ErrServerMisbehaving] for the rest; everything else gives [nil]. *)
Theorem ResponseErrorFromRCODE_cases (resp : Msg.t) :
  (Msg.Rcode resp = dns.RcodeNameError ->
   ResponseErrorFromRCODE resp = Some ErrNoName) /\
  (Msg.Rcode resp <> dns.RcodeNameError ->
   lameReferral resp ->
   ResponseErrorFromRCODE resp = Some ErrNoData) /\
  (Msg.Rcode resp <> dns.RcodeNameError ->
   ~ lameReferral resp ->
   Msg.Rcode resp <> dns.RcodeSuccess ->
   Msg.Rcode resp = dns.RcodeServerFailure ->
   ResponseErrorFromRCODE resp = Some ErrServerTemporarilyMisbehaving) /\
  (Msg.Rcode resp <> dns.RcodeNameError ->
   ~ lameReferral resp ->
   Msg.Rcode resp <> dns.RcodeSuccess ->
   Msg.Rcode resp <> dns.RcodeServerFailure ->
   ResponseErrorFromRCODE resp = Some ErrServerMisbehaving) /\
  (Msg.Rcode resp <> dns.RcodeNameError ->
   ~ lameReferral resp ->
   Msg.Rcode resp = dns.RcodeSuccess ->
   ResponseErrorFromRCODE resp = None).
Proof.
  unfold ResponseErrorFromRCODE, lameReferral.
  split; [|split; [|split; [|split]]].
  - intros ->. reflexivity.
  - intros Hne (Hrc & Ha & Hra & Hans).
    destruct (Z.eqb_spec (Msg.Rcode resp) dns.RcodeNameError); [contradiction|].
    rewrite Hrc, Ha, Hra, Hans. reflexivity.
  - intros Hne Hlame Hns Hsf.
    destruct (Z.eqb_spec (Msg.Rcode resp) dns.RcodeNameError); [contradiction|].
    destruct (Z.eqb_spec (Msg.Rcode resp) dns.RcodeSuccess); [contradiction|].
    simpl. rewrite Hsf. reflexivity.
  - intros Hne Hlame Hns Hsf.
    destruct (Z.eqb_spec (Msg.Rcode resp) dns.RcodeNameError); [contradiction|].
    destruct (Z.eqb_spec (Msg.Rcode resp) dns.RcodeSuccess); [contradiction|].
    simpl.
    destruct (Z.eqb_spec (Msg.Rcode resp) dns.RcodeServerFailure); [contradiction|].
    reflexivity.
  - intros Hne Hlame Hs.
    destruct (Z.eqb_spec (Msg.Rcode resp) dns.RcodeNameError); [contradiction|].
    destruct (Z.eqb_spec (Msg.Rcode resp) dns.RcodeSuccess); [|contradiction].
    simpl.
    destruct (Msg.Authoritative resp) eqn:Ha; simpl; [reflexivity|].
    destruct (Msg.RecursionAvailable resp) eqn:Hra; simpl; [reflexivity|].
    destruct (Msg.Answer resp) eqn:Hans; simpl; [|reflexivity].
    exfalso. apply Hlame. auto.
Qed.

(** ** Properties of the chain walk *)

Lemma chainStep_continues (q0 : Question.t) (names : gmap string bool)
    (tip : string) (header : RR_Header.t) (target : string) :
  responseEqualASCIIName tip (RR_Header.Name header) = true ->
  RR_Header.Class header = Question.Qclass q0 ->
  chainStep q0 (names, tip) (RR_CNAME header target)
  = (<[CanonicalName target := true]> names, CanonicalName target).
Proof.
  intros Hname Hclass. simpl. rewrite Hname, Hclass, Z.eqb_refl. reflexivity.
Qed.

Lemma chainStep_skips (q0 : Question.t) (st : gmap string bool * string)
    (rr : RR) :
  ~ continuesChain q0 (snd st) rr -> chainStep q0 st rr = st.
Proof.
  intros Hno. destruct st as [names tip]. destruct rr as [| |header target|];
    try reflexivity.
  simpl.
  destruct (responseEqualASCIIName tip (RR_Header.Name header)) eqn:Hname;
    [|reflexivity].
  destruct (Z.eqb_spec (RR_Header.Class header) (Question.Qclass q0)) as [Hc|];
    [|reflexivity].
  exfalso. apply Hno. exists header, target. auto.
Qed.

Lemma buildChain_app (q0 : Question.t) (pre post : list RR) :
  buildChain q0 (pre ++ post)
  = fold_left (chainStep q0) post (buildChain q0 pre).
Proof.
  unfold buildChain. apply fold_left_app.
Qed.

(** A name recorded as valid stays valid: entries are only ever added, and
    always with the value [true]. *)
Lemma chainStep_keeps (q0 : Question.t) (st : gmap string bool * string)
    (rr : RR) (name : string) :
  validName (fst st) name = true ->
  validName (fst (chainStep q0 st rr)) name = true.
Proof.
  intros Hin. destruct st as [names tip].
  destruct rr as [| |header target|]; try exact Hin.
  simpl.
  destruct (responseEqualASCIIName tip (RR_Header.Name header)
            && (RR_Header.Class header =? Question.Qclass q0)); [|exact Hin].
  simpl. unfold validName, responseCanonicalName in *.
  destruct (decide (CanonicalName target = name)) as [->|Hne].
  - rewrite lookup_insert_eq. reflexivity.
  - rewrite lookup_insert_ne by exact Hne. exact Hin.
Qed.

Lemma chain_fold_keeps (q0 : Question.t) (answers : list RR) :
  forall (st : gmap string bool * string) (name : string),
    validName (fst st) name = true ->
    validName (fst (fold_left (chainStep q0) answers st)) name = true.
Proof.
  induction answers as [|rr answers IH]; intros st name Hin; simpl.
  - exact Hin.
  - apply IH. apply chainStep_keeps. exact Hin.
Qed.

Lemma buildChain_query_name (q0 : Question.t) (answers : list RR) :
  validName (fst (buildChain q0 answers))
            (responseCanonicalName (Question.Name q0)) = true.
Proof.
  unfold buildChain. apply chain_fold_keeps.
  unfold validName. simpl. rewrite lookup_insert_eq. reflexivity.
Qed.

(** The walk of the code and the walk worded by the specification agree
    from any two tips that the comparator holds equal. *)
Lemma chain_fold_claimedWalk (q0 : Question.t) (answers : list RR) :
  forall (names : gmap string bool) (tip tip' : string),
    responseEqualASCIIName tip' tip = true ->
    fst (fold_left (chainStep q0) answers (names, tip))
    = claimedWalk q0 names tip' answers.
Proof.
  induction answers as [|rr answers IH]; intros names tip tip' Htip.
  - reflexivity.
  - destruct rr as [h a|h a|header target|h]; simpl;
      try (apply IH; exact Htip).
    rewrite (responseEqualASCIIName_sym (RR_Header.Name header) tip').
    rewrite <- (responseEqualASCIIName_trans tip' tip _ Htip).
    destruct (responseEqualASCIIName tip (RR_Header.Name header)
              && (RR_Header.Class header =? Question.Qclass q0)).
    + apply IH. apply responseEqualASCIIName_refl.
    + apply IH. exact Htip.
Qed.

(** C1, with the start of the chain as the code has it.  The set of valid
    names starts as the canonical form of the query name and the tip starts
    as the query name itself; a canonical-name record that continues the
    chain from the tip, in answer order, moves the tip to its canonical
    target and records that target; every other record leaves the walk as
    if it were absent, whatever comes after it; and when the comparator
    holds the query name equal to its canonical form the valid names are
    those of a chain started at the canonical name. *)
Theorem buildChain_walk (q0 : Question.t) :
  buildChain q0 []
  = (<[CanonicalName (Question.Name q0) := true]> ∅, Question.Name q0) /\
  (forall (pre : list RR) (header : RR_Header.t) (target : string),
      responseEqualASCIIName (snd (buildChain q0 pre)) (RR_Header.Name header)
      = true ->
      RR_Header.Class header = Question.Qclass q0 ->
      buildChain q0 (pre ++ [RR_CNAME header target])
      = (<[CanonicalName target := true]> (fst (buildChain q0 pre)),
         CanonicalName target)) /\
  (forall (pre post : list RR) (rr : RR),
      ~ continuesChain q0 (snd (buildChain q0 pre)) rr ->
      buildChain q0 (pre ++ rr :: post) = buildChain q0 (pre ++ post)) /\
  (forall answers : list RR,
      responseEqualASCIIName (CanonicalName (Question.Name q0))
                             (Question.Name q0) = true ->
      fst (buildChain q0 answers) = claimedValidNames q0 answers).
Proof.
  split; [|split; [|split]].
  - reflexivity.
  - intros pre header target Hname Hclass.
    rewrite buildChain_app. simpl.
    destruct (buildChain q0 pre) as [names tip]. simpl in Hname.
    apply chainStep_continues; assumption.
  - intros pre post rr Hno.
    rewrite !buildChain_app. simpl.
    rewrite chainStep_skips by exact Hno. reflexivity.
  - intros answers Hq. unfold buildChain, claimedValidNames.
    apply chain_fold_claimedWalk. exact Hq.
Qed.

(** ** Properties of the answer filter *)

Lemma filterStep_validAnswer (q0 : Question.t) (names : gmap string bool)
    (valid : list RR) (answer : RR) :
  filterStep q0 names valid answer
  = (valid ++ if validAnswer q0 names answer then [answer] else [])%list.
Proof.
  unfold filterStep, validAnswer.
  destruct (validName names _); simpl.
  - rewrite (Z.eqb_sym (Question.Qclass q0)).
    destruct (RR_Header.Class (Header answer) =? Question.Qclass q0); simpl.
    + reflexivity.
    + symmetry. apply app_nil_r.
  - symmetry. apply app_nil_r.
Qed.

Lemma filter_fold (q0 : Question.t) (names : gmap string bool)
    (answers : list RR) :
  forall valid : list RR,
    fold_left (filterStep q0 names) answers valid
    = (valid ++ List.filter (validAnswer q0 names) answers)%list.
Proof.
  induction answers as [|rr answers IH]; intros valid; simpl.
  - symmetry. apply app_nil_r.
  - rewrite IH, filterStep_validAnswer.
    destruct (validAnswer q0 names rr); simpl.
    + rewrite <- app_assoc. reflexivity.
    + rewrite app_nil_r. reflexivity.
Qed.

Lemma ResponseExtractValidAnswers_eq (q0 : Question.t) (resp : Msg.t) :
  ResponseExtractValidAnswers q0 resp
  = match List.filter (validAnswer q0 (fst (buildChain q0 (Msg.Answer resp))))
                      (Msg.Answer resp) with
    | [] => Err ErrNoData
    | rr :: rrs => Ok (rr :: rrs)
    end.
Proof.
  unfold ResponseExtractValidAnswers. rewrite filter_fold. simpl.
  destruct (List.filter _ _); reflexivity.
Qed.

Lemma filter_none {A : Type} (f : A -> bool) (l : list A) :
  (forall a, In a l -> f a = false) -> List.filter f l = [].
Proof.
  induction l as [|a l IH]; intros H; simpl; [reflexivity|].
  rewrite (H a) by (left; reflexivity).
  apply IH. intros b Hb. apply H. right. exact Hb.
Qed.

(** C2.  Extraction returns the answers whose canonical owner name is a
    valid name and whose class is the class asked, in the order of the
    answer section and whatever their type; it fails, with [ErrNoData],
    exactly when there is no such answer: so for an empty answer section,
    for answers whose names the chain never reaches and for answers of
    another class. *)
Theorem ResponseExtractValidAnswers_filter (q0 : Question.t) (resp : Msg.t) :
  let names := fst (buildChain q0 (Msg.Answer resp)) in
  let kept := List.filter (validAnswer q0 names) (Msg.Answer resp) in
  (kept <> [] -> ResponseExtractValidAnswers q0 resp = Ok kept) /\
  (kept = [] -> ResponseExtractValidAnswers q0 resp = Err ErrNoData) /\
  (forall e, ResponseExtractValidAnswers q0 resp = Err e ->
             e = ErrNoData /\ kept = []) /\
  (forall rr rr' : RR,
      RR_Header.Name (Header rr) = RR_Header.Name (Header rr') ->
      RR_Header.Class (Header rr) = RR_Header.Class (Header rr') ->
      validAnswer q0 names rr = validAnswer q0 names rr') /\
  (Msg.Answer resp = [] ->
   ResponseExtractValidAnswers q0 resp = Err ErrNoData) /\
  ((forall rr, In rr (Msg.Answer resp) ->
      validName names (CanonicalName (RR_Header.Name (Header rr))) = false) ->
   ResponseExtractValidAnswers q0 resp = Err ErrNoData) /\
  ((forall rr, In rr (Msg.Answer resp) ->
      RR_Header.Class (Header rr) <> Question.Qclass q0) ->
   ResponseExtractValidAnswers q0 resp = Err ErrNoData).
Proof.
  intros names kept.
  assert (Hnone : kept = [] -> ResponseExtractValidAnswers q0 resp = Err ErrNoData).
  { intros Hk. rewrite ResponseExtractValidAnswers_eq.
    fold names. fold kept. rewrite Hk. reflexivity. }
  split; [|split; [|split; [|split; [|split; [|split]]]]].
  - intros Hk. rewrite ResponseExtractValidAnswers_eq.
    fold names. fold kept. destruct kept; [contradiction | reflexivity].
  - exact Hnone.
  - intros e. rewrite ResponseExtractValidAnswers_eq.
    fold names. fold kept. destruct kept; [|discriminate].
    intros [= <-]. auto.
  - intros rr rr' Hn Hc. unfold validAnswer. rewrite Hn, Hc. reflexivity.
  - intros Hans. apply Hnone. unfold kept. rewrite Hans. reflexivity.
  - intros Hall. apply Hnone. apply filter_none.
    intros rr Hin. unfold validAnswer, responseCanonicalName.
    rewrite (Hall rr Hin). reflexivity.
  - intros Hall. apply Hnone. apply filter_none.
    intros rr Hin. unfold validAnswer.
    destruct (Z.eqb_spec (RR_Header.Class (Header rr)) (Question.Qclass q0))
      as [Hc|Hc].
    + exfalso. exact (Hall rr Hin Hc).
    + apply andb_false_r.
Qed.

(** C10.  An answer whose canonical owner name is the canonical query name
    and whose class is the class asked is part of the result, with or
    without canonical-name records in the response; so extraction succeeds
    whenever there is such an answer. *)
Theorem ResponseExtractValidAnswers_query_name (q0 : Question.t)
    (resp : Msg.t) (rr : RR) :
  In rr (Msg.Answer resp) ->
  CanonicalName (RR_Header.Name (Header rr))
  = CanonicalName (Question.Name q0) ->
  RR_Header.Class (Header rr) = Question.Qclass q0 ->
  exists rrs : list RR,
    ResponseExtractValidAnswers q0 resp = Ok rrs /\ In rr rrs
    /\ ResponseExtractValidAnswers q0 resp <> Err ErrNoData.
Proof.
  intros Hin Hname Hclass.
  assert (Hkept : In rr (List.filter
            (validAnswer q0 (fst (buildChain q0 (Msg.Answer resp))))
            (Msg.Answer resp))).
  { apply filter_In. split; [exact Hin|].
    unfold validAnswer, responseCanonicalName. rewrite Hname, Hclass.
    rewrite Z.eqb_refl, andb_true_r.
    apply buildChain_query_name. }
  rewrite ResponseExtractValidAnswers_eq.
  destruct (List.filter _ _) as [|rr0 rrs]; [destruct Hkept|].
  exists (rr0 :: rrs). repeat split; [exact Hkept | discriminate].
Qed.

(** ** Properties of the pipeline *)

Lemma ResponseExtractValidAnswers_nonempty (q0 : Question.t) (resp : Msg.t)
    (rrs : list RR) :
  ResponseExtractValidAnswers q0 resp = Ok rrs -> rrs <> [].
Proof.
  rewrite ResponseExtractValidAnswers_eq.
  destruct (List.filter _ _); [discriminate|].
  intros [= <-]. discriminate.
Qed.

(** C6.  [ParseResponse] validates, then interprets the result code, then
    extracts: an error of a stage is returned as it is and hides the later
    stages, the [Response] value exists only when the three stages succeed,
    and its list of valid records is then not empty. *)
Theorem ParseResponse_pipeline (query resp : Msg.t) :
  (forall e : error,
      ValidateResponseForQuery query resp = Err e ->
      ParseResponse query resp = Err e) /\
  (forall (q0 : Question.t) (e : error),
      ValidateResponseForQuery query resp = Ok q0 ->
      ResponseErrorFromRCODE resp = Some e ->
      ParseResponse query resp = Err e) /\
  (forall (q0 : Question.t) (e : error),
      ValidateResponseForQuery query resp = Ok q0 ->
      ResponseErrorFromRCODE resp = None ->
      ResponseExtractValidAnswers q0 resp = Err e ->
      ParseResponse query resp = Err e) /\
  (forall (q0 : Question.t) (rrs : list RR),
      ValidateResponseForQuery query resp = Ok q0 ->
      ResponseErrorFromRCODE resp = None ->
      ResponseExtractValidAnswers q0 resp = Ok rrs ->
      ParseResponse query resp = Ok (Response.mk query resp rrs)) /\
  (forall rp : Response.t,
      ParseResponse query resp = Ok rp ->
      Response.ValidRRs rp <> []
      /\ Response.Query rp = query /\ Response.Response rp = resp
      /\ exists q0 : Question.t,
           ValidateResponseForQuery query resp = Ok q0
           /\ ResponseErrorFromRCODE resp = None
           /\ ResponseExtractValidAnswers q0 resp = Ok (Response.ValidRRs rp)).
Proof.
  unfold ParseResponse.
  split; [|split; [|split; [|split]]].
  - intros e ->. reflexivity.
  - intros q0 e -> ->. reflexivity.
  - intros q0 e -> -> ->. reflexivity.
  - intros q0 rrs -> -> ->. reflexivity.
  - intros rp.
    destruct (ValidateResponseForQuery query resp) as [q0|]; [|discriminate].
    destruct (ResponseErrorFromRCODE resp); [discriminate|].
    destruct (ResponseExtractValidAnswers q0 resp) as [rrs|] eqn:Hex;
      [|discriminate].
    intros [= <-]. simpl. split.
    + eapply ResponseExtractValidAnswers_nonempty. exact Hex.
    + eauto 10.
Qed.

(** ** Properties of the typed projections *)

(** The loops of the projections all append the text of the payload of each
    record of the wanted variant; one script proves what each one computes. *)
Ltac projection_loop rrs :=
  induction rrs as [|[h a|h a|h t|h] rrs IH]; intros out; simpl;
  [ symmetry; apply app_nil_r
  | try (rewrite IH, <- app_assoc; reflexivity); try (apply IH) .. ].

Lemma RecordsA_loop (rrs : list RR) :
  forall out : list string,
    fold_left
      (fun out rr =>
         match rr with
         | RR_A _ a => (out ++ [IPString a])%list
         | _ => out
         end) rrs out
    = (out ++ map IPString (omap payloadA rrs))%list.
Proof. projection_loop rrs. Qed.

Lemma RecordsAAAA_loop (rrs : list RR) :
  forall out : list string,
    fold_left
      (fun out rr =>
         match rr with
         | RR_AAAA _ aaaa => (out ++ [IPString aaaa])%list
         | _ => out
         end) rrs out
    = (out ++ map IPString (omap payloadAAAA rrs))%list.
Proof. projection_loop rrs. Qed.

Lemma RecordsCNAME_loop (rrs : list RR) :
  forall out : list string,
    fold_left
      (fun out rr =>
         match rr with
         | RR_CNAME _ target => (out ++ [target])%list
         | _ => out
         end) rrs out
    = (out ++ omap payloadCNAME rrs)%list.
Proof. projection_loop rrs. Qed.

(** C9.  [RecordsA] returns the texts of the addresses of the address-v4
    records of the valid list, in order, and [RecordsAAAA] those of the
    address-v6 records; no record has both payloads; and each fails with
    [ErrNoData], and never returns an empty list, when there is no record
    of its variant. *)
Theorem RecordsA_RecordsAAAA_spec (r : Response.t) :
  let v4 := map IPString (omap payloadA (Response.ValidRRs r)) in
  let v6 := map IPString (omap payloadAAAA (Response.ValidRRs r)) in
  RecordsA r = (if decide (v4 = []) then Err ErrNoData else Ok v4) /\
  RecordsAAAA r = (if decide (v6 = []) then Err ErrNoData else Ok v6) /\
  (forall rr : RR, payloadA rr = None \/ payloadAAAA rr = None) /\
  RecordsA r <> Ok [] /\ RecordsAAAA r <> Ok [].
Proof.
  intros v4 v6.
  assert (HA : RecordsA r = if decide (v4 = []) then Err ErrNoData else Ok v4).
  { unfold RecordsA. rewrite RecordsA_loop. simpl. fold v4.
    destruct v4; reflexivity. }
  assert (HAAAA : RecordsAAAA r
                  = if decide (v6 = []) then Err ErrNoData else Ok v6).
  { unfold RecordsAAAA. rewrite RecordsAAAA_loop. simpl. fold v6.
    destruct v6; reflexivity. }
  split; [exact HA|]. split; [exact HAAAA|]. split; [|split].
  - intros [h a|h a|h t|h]; simpl; auto.
  - rewrite HA. destruct (decide (v4 = [])); congruence.
  - rewrite HAAAA. destruct (decide (v6 = [])); congruence.
Qed.

(** C8.  [RecordsCNAME] returns the targets of the canonical-name records
    of the valid list, all of them and in order, and fails with [ErrNoData]
    when the list has no canonical-name record. *)
Theorem RecordsCNAME_spec (r : Response.t) :
  let targets := omap payloadCNAME (Response.ValidRRs r) in
  RecordsCNAME r = (if decide (targets = []) then Err ErrNoData else Ok targets)
  /\ ((forall rr, In rr (Response.ValidRRs r) -> payloadCNAME rr = None) <->
      RecordsCNAME r = Err ErrNoData).
Proof.
  intros targets.
  assert (H : RecordsCNAME r
              = if decide (targets = []) then Err ErrNoData else Ok targets).
  { unfold RecordsCNAME. rewrite RecordsCNAME_loop. simpl. fold targets.
    destruct targets; reflexivity. }
  split; [exact H|]. rewrite H. clear H. unfold targets. clear targets.
  generalize (Response.ValidRRs r) as rrs.
  induction rrs as [|rr rrs IH]; simpl.
  - split; [reflexivity | intros _ rr []].
  - destruct (payloadCNAME rr) eqn:Hrr; simpl.
    + split; [|discriminate].
      intros Hall. rewrite (Hall rr) in Hrr by (left; reflexivity).
      discriminate.
    + rewrite <- IH. split.
      * intros Hall rr' Hin. apply Hall. right. exact Hin.
      * intros Hall rr' [<-|Hin]; [exact Hrr | apply Hall; exact Hin].
Qed.

(** [RecordFirstCNAME], which the sources do contain, returns the head of
    what [RecordsCNAME] returns. *)
Lemma RecordFirstCNAME_head (r : Response.t) :
  RecordFirstCNAME r
  = match omap payloadCNAME (Response.ValidRRs r) with
    | [] => Err ErrNoData
    | target :: _ => Ok target
    end.
Proof.
  unfold RecordFirstCNAME.
  induction (Response.ValidRRs r) as [|[h a|h a|h t|h] rrs IH]; simpl;
    try exact IH; reflexivity.
Qed.


(** ** Properties of the query builder *)

(** The 16-bit arithmetic of the remainder is the plain remainder: 65536 is
    a multiple of 128, so neither the conversion nor the wrap-around of the
    subtraction is seen modulo 128. *)
Lemma paddingRemainder_mod (l : Z) :
  paddingRemainder l = (128 - (l + 4)) mod 128.
Proof.
  unfold paddingRemainder, uint16, desiredSize.
  pose proof (Z.div_mod (l + 4) 65536 ltac:(lia)) as H1.
  pose proof (Z.div_mod (128 - (l + 4) mod 65536) 65536 ltac:(lia)) as H2.
  replace ((128 - (l + 4) mod 65536) mod 65536)
    with ((128 - (l + 4))
          + ((l + 4) / 65536 - (128 - (l + 4) mod 65536) / 65536) * 512 * 128)
    by lia.
  apply Z.mod_add. lia.
Qed.

Lemma paddingRemainder_range (l : Z) : 0 <= paddingRemainder l < 128.
Proof.
  rewrite paddingRemainder_mod. apply Z.mod_pos_bound. lia.
Qed.

Lemma paddingRemainder_block (l : Z) : (l + 4 + paddingRemainder l) mod 128 = 0.
Proof.
  rewrite paddingRemainder_mod.
  rewrite Z.add_mod by lia. rewrite Z.mod_mod by lia.
  rewrite <- Z.add_mod by lia.
  replace (l + 4 + (128 - (l + 4))) with (1 * 128) by lia.
  apply Z.mod_mul. lia.
Qed.

Lemma withoutPadding_flags (q : Query.t) :
  Z.land (Query.Flags (withoutPadding q)) QueryFlagBlockLengthPadding = 0
  /\ Z.land (Query.Flags (withoutPadding q)) QueryFlagDNSSec
     = Z.land (Query.Flags q) QueryFlagDNSSec.
Proof.
  unfold withoutPadding, QueryFlagBlockLengthPadding, QueryFlagDNSSec. simpl.
  rewrite <- !Z.land_assoc. simpl. split; [apply Z.land_0_r | reflexivity].
Qed.

(** The only failure of [NewMsg] is the failure of the IDNA encoder. *)
Lemma NewMsg_error (q : Query.t) (e : error) :
  NewMsg q = Err e <-> ToASCII (Query.Name q) = Err e.
Proof.
  unfold NewMsg. destruct (ToASCII (Query.Name q)); split; congruence.
Qed.

(** C3.  Let [msg0], of length [L], be the message built for a query when
    padding is off, and let the codec count an option as its 4-octet header
    plus its data.  With the padding flag the build succeeds too, the only
    option of its OPT record is a padding option of
    [(128 - (L + 4)) mod 128] zero bytes, and the length of the message is
    the least multiple of 128 from [L + 4] on.  The remainder itself is
    defined for every length. *)
Theorem NewMsg_block_length_padding (q : Query.t) (msg0 : Msg.t) :
  Z.land (Query.Flags q) QueryFlagBlockLengthPadding <> 0 ->
  NewMsg (withoutPadding q) = Ok msg0 ->
  (forall opt : EDNS0.t,
      Len (appendEdns0Option msg0 opt)
      = Len msg0 + 4 + Z.of_nat (length (EDNS0.Data opt))) ->
  let L := Len msg0 in
  let remainder := (128 - (L + 4)) mod 128 in
  exists (msg : Msg.t) (opt : OPT.t) (padding : list byte),
    NewMsg q = Ok msg
    /\ dns.IsEdns0 msg = Some opt
    /\ OPT.Option opt = [EDNS0_PADDING padding]
    /\ Z.of_nat (length padding) = remainder
    /\ (forall b : byte, In b padding -> b = x00)
    /\ Len msg = L + 4 + remainder
    /\ Len msg mod 128 = 0
    /\ L + 4 <= Len msg
    /\ (forall k : Z, k mod 128 = 0 -> L + 4 <= k -> Len msg <= k)
    /\ (forall l : Z, paddingRemainder l = (128 - (l + 4)) mod 128
                      /\ 0 <= paddingRemainder l < 128).
Proof.
  intros Hflag Hbase Hlen L remainder.
  destruct (withoutPadding_flags q) as [Hoff Hsec].
  unfold NewMsg in Hbase. rewrite Hoff, Hsec in Hbase.
  change (Query.Name (withoutPadding q)) with (Query.Name q) in Hbase.
  change (Query.Type_ (withoutPadding q)) with (Query.Type_ q) in Hbase.
  change (Query.ID (withoutPadding q)) with (Query.ID q) in Hbase.
  change (Query.MaxSize (withoutPadding q)) with (Query.MaxSize q) in Hbase.
  unfold NewMsg.
  destruct (ToASCII (Query.Name q)) as [punyName|]; [|discriminate].
  simpl in Hbase. injection Hbase as Hbase.
  destruct (Z.eqb_spec (Z.land (Query.Flags q) QueryFlagBlockLengthPadding) 0)
    as [|_]; [contradiction|].
  cbv zeta. simpl negb. cbv iota. rewrite Hbase. fold L.
  pose proof (paddingRemainder_mod L) as Hmod. fold remainder in Hmod.
  pose proof (paddingRemainder_range L) as Hrange.
  pose proof (paddingRemainder_block L) as Hblock.
  rewrite Hmod in *.
  set (padding := repeat x00 (Z.to_nat remainder)).
  assert (Hpad : Z.of_nat (length padding) = remainder).
  { unfold padding. rewrite repeat_length. lia. }
  assert (Hmsg : Len (appendEdns0Option msg0 (EDNS0_PADDING padding))
                 = L + 4 + remainder).
  { rewrite Hlen. simpl. fold L. lia. }
  eexists. eexists. exists padding.
  split; [reflexivity|].
  split; [rewrite <- Hbase; reflexivity|].
  split; [reflexivity|].
  split; [exact Hpad|].
  split; [intros b Hb; apply repeat_spec in Hb; exact Hb|].
  split; [exact Hmsg|].
  rewrite Hmsg.
  split; [exact Hblock|].
  split; [lia|].
  split.
  - intros k Hk Hle.
    pose proof (Z.div_mod k 128 ltac:(lia)) as Hkd. rewrite Hk in Hkd.
    pose proof (Z.div_mod (L + 4 + remainder) 128 ltac:(lia)) as Hd.
    rewrite Hblock in Hd. lia.
  - intros l. split; [apply paddingRemainder_mod | apply paddingRemainder_range].
Qed.


(** ** Further properties of the comparator *)

(** The comparator is an equivalence relation on names. *)
Theorem responseEqualASCIIName_equivalence :
  (forall x : string, responseEqualASCIIName x x = true)
  /\ (forall x y : string,
         responseEqualASCIIName x y = responseEqualASCIIName y x)
  /\ (forall x y z : string,
         responseEqualASCIIName x y = true ->
         responseEqualASCIIName y z = true ->
         responseEqualASCIIName x z = true).
Proof.
  split; [exact responseEqualASCIIName_refl|].
  split; [exact responseEqualASCIIName_sym|].
  intros x y z Hxy Hyz.
  rewrite <- (responseEqualASCIIName_trans x y z Hxy). exact Hyz.
Qed.

Lemma byteval_inj (a b : ascii) : dns.byteval a = dns.byteval b -> a = b.
Proof.
  unfold dns.byteval. intros H. apply N2Z.inj in H.
  rewrite <- (ascii_N_embedding a), <- (ascii_N_embedding b), H.
  reflexivity.
Qed.

(** Lower-casing a byte of a string is the folding the comparator does. *)
Lemma byteval_lowerByte (a : ascii) :
  dns.byteval (dns.lowerByte a) = foldByte (dns.byteval a).
Proof.
  unfold dns.lowerByte, foldByte.
  pose proof (byteval_range a) as Hr.
  destruct ((65 <=? dns.byteval a) && (dns.byteval a <=? 90)) eqn:Hletter;
    [|reflexivity].
  apply andb_true_iff in Hletter. destruct Hletter as [H1 H2].
  apply Z.leb_le in H1, H2.
  unfold dns.byteval at 1. rewrite N_ascii_embedding by lia.
  rewrite Z2N.id by lia. symmetry. apply Z.mod_small. lia.
Qed.

Lemma lowerByte_eq_iff (a b : ascii) :
  dns.lowerByte a = dns.lowerByte b
  <-> foldByte (dns.byteval a) = foldByte (dns.byteval b).
Proof.
  rewrite <- !byteval_lowerByte. split.
  - intros ->. reflexivity.
  - apply byteval_inj.
Qed.

Lemma mapBytes_length (f : ascii -> ascii) (x : string) :
  String.length (dns.mapBytes f x) = String.length x.
Proof.
  induction x as [|a x IH]; simpl; [reflexivity | rewrite IH; reflexivity].
Qed.

Lemma equalASCIILoop_lower (x : string) :
  forall y : string,
    String.length x = String.length y ->
    equalASCIILoop x y = true
    <-> dns.mapBytes dns.lowerByte x = dns.mapBytes dns.lowerByte y.
Proof.
  induction x as [|a x IH]; intros [|b y] Hlen; simpl in *; try discriminate.
  - split; reflexivity.
  - injection Hlen as Hlen.
    destruct (Z.eqb_spec (foldByte (dns.byteval a)) (foldByte (dns.byteval b)))
      as [Hab|Hab]; simpl.
    + rewrite (IH y Hlen). apply lowerByte_eq_iff in Hab. rewrite Hab.
      split; [intros ->; reflexivity | intros [= H]; exact H].
    + split; [discriminate|].
      intros [= H _]. apply lowerByte_eq_iff in H. contradiction.
Qed.

Lemma responseEqualASCIIName_mapBytes (x y : string) :
  responseEqualASCIIName x y = true
  <-> dns.mapBytes dns.lowerByte x = dns.mapBytes dns.lowerByte y.
Proof.
  unfold responseEqualASCIIName.
  destruct (Nat.eqb_spec (String.length x) (String.length y)) as [Hlen|Hlen];
    simpl.
  - apply equalASCIILoop_lower. exact Hlen.
  - split; [discriminate|]. intros H. exfalso. apply Hlen.
    rewrite <- (mapBytes_length dns.lowerByte x), H.
    apply mapBytes_length.
Qed.

(** The comparator holds two names equal exactly when they are the same
    string once the letters [A]-[Z] of both are put in lower case. *)
Theorem responseEqualASCIIName_lower (x y : string) :
  responseEqualASCIIName x y
  = String.eqb (dns.mapBytes dns.lowerByte x) (dns.mapBytes dns.lowerByte y).
Proof.
  destruct (String.eqb_spec (dns.mapBytes dns.lowerByte x)
                            (dns.mapBytes dns.lowerByte y)) as [Heq|Hne].
  - apply responseEqualASCIIName_mapBytes. exact Heq.
  - destruct (responseEqualASCIIName x y) eqn:Hc; [|reflexivity].
    exfalso. apply Hne. apply responseEqualASCIIName_mapBytes. exact Hc.
Qed.

Lemma lowerByte_idempotent (a : ascii) :
  dns.lowerByte (dns.lowerByte a) = dns.lowerByte a.
Proof.
  apply byteval_inj. rewrite !byteval_lowerByte.
  pose proof (byteval_range a) as Hr.
  destruct (Z_le_dec 65 (dns.byteval a)); destruct (Z_le_dec (dns.byteval a) 90);
    try (rewrite !(foldByte_other (dns.byteval a)) by lia; reflexivity).
  rewrite (foldByte_letter (dns.byteval a)) by lia.
  apply foldByte_other. lia.
Qed.



(** ** Further properties of validation and of the result code *)

(** Validation succeeds with [q0] exactly when the response is flagged as
    one, carries the identifier of the query, [q0] is the only question of
    the query, and the only question of the response has the type and
    class of [q0] and a name the comparator holds equal to the name of
    [q0]. *)
Theorem ValidateResponseForQuery_success (query resp : Msg.t)
    (q0 : Question.t) :
  ValidateResponseForQuery query resp = Ok q0
  <-> Msg.Response resp = true
      /\ Msg.Id resp = Msg.Id query
      /\ Msg.Question query = [q0]
      /\ exists resp0 : Question.t,
           Msg.Question resp = [resp0]
           /\ responseEqualASCIIName (Question.Name resp0) (Question.Name q0)
              = true
           /\ Question.Qclass resp0 = Question.Qclass q0
           /\ Question.Qtype resp0 = Question.Qtype q0.
Proof.
  split.
  - intros H. pose proof (ValidateResponseForQuery_result query resp) as Hres.
    rewrite H in Hres. destruct Hres as (Hq & Hr & Hid & Hresp). auto.
  - intros (Hr & Hid & Hq & resp0 & Hresp & Hname & Hclass & Htype).
    unfold ValidateResponseForQuery.
    rewrite Hr, Hid, Hq, Hresp, Hname, Hclass, Htype. simpl.
    rewrite !Z.eqb_refl. reflexivity.
Qed.


(** The interpreter answers [nil] exactly for a success that is
    authoritative, recursive or not empty; it answers [ErrNoData] exactly
    for a lame referral; and it has no other error than [ErrNoName],
    [ErrNoData] and the two misbehaviour errors. *)
Theorem ResponseErrorFromRCODE_results (resp : Msg.t) :
  (ResponseErrorFromRCODE resp = None
   <-> Msg.Rcode resp = dns.RcodeSuccess
       /\ (Msg.Authoritative resp = true
           \/ Msg.RecursionAvailable resp = true
           \/ Msg.Answer resp <> []))
  /\ (ResponseErrorFromRCODE resp = Some ErrNoData <-> lameReferral resp)
  /\ (forall e : error,
         ResponseErrorFromRCODE resp = Some e ->
         e = ErrNoName \/ e = ErrNoData
         \/ e = ErrServerTemporarilyMisbehaving \/ e = ErrServerMisbehaving).
Proof.
  unfold ResponseErrorFromRCODE, lameReferral.
  destruct (Z.eqb_spec (Msg.Rcode resp) dns.RcodeNameError) as [Hne|Hne].
  - rewrite Hne. split; [|split].
    + split; [discriminate | intros (H & _); discriminate].
    + split; [discriminate | intros (H & _); discriminate].
    + intros e [= <-]. auto.
  - destruct (Z.eqb_spec (Msg.Rcode resp) dns.RcodeSuccess) as [Hs|Hs]; simpl.
    + destruct (Msg.Authoritative resp), (Msg.RecursionAvailable resp),
        (Msg.Answer resp) as [|rr rrs]; simpl;
        (split; [|split];
         [ split; [intros H; first [discriminate H | split; [exact Hs|]]
                  | intros (_ & [H|[H|H]]); congruence ]
         | split; [intros H; first [discriminate H | auto]
                  | intros (_ & H1 & H2 & H3); congruence ]
         | intros e H; first [discriminate H | injection H as <-; auto] ]);
        auto; right; right; discriminate.
    + split; [|split].
      * destruct (Msg.Rcode resp =? dns.RcodeServerFailure);
          (split; [discriminate | intros (H & _); contradiction]).
      * destruct (Msg.Rcode resp =? dns.RcodeServerFailure);
          (split; [discriminate | intros (H & _); contradiction]).
      * destruct (Msg.Rcode resp =? dns.RcodeServerFailure);
          intros e [= <-]; auto.
Qed.

(** ** Further properties of the chain walk and of the filter *)

Lemma validName_insert (names : gmap string bool) (k n : string) :
  validName (<[k := true]> names) n = true
  <-> k = n \/ validName names n = true.
Proof.
  unfold validName. destruct (decide (k = n)) as [->|Hne].
  - rewrite lookup_insert_eq. simpl. split; auto.
  - rewrite lookup_insert_ne by exact Hne. split; [auto|].
    intros [H|H]; [contradiction | exact H].
Qed.

Lemma chain_fold_names (q0 : Question.t) (l : list RR) :
  forall (st : gmap string bool * string) (n : string),
    validName (fst (fold_left (chainStep q0) l st)) n = true ->
    validName (fst st) n = true
    \/ exists header target,
         In (RR_CNAME header target) l
         /\ RR_Header.Class header = Question.Qclass q0
         /\ n = CanonicalName target.
Proof.
  induction l as [|rr l IH]; intros st n Hn; simpl in *.
  - left. exact Hn.
  - destruct (IH _ _ Hn) as [Hst|(h & t & Hin & Hc & Ht)].
    + destruct st as [names tip].
      destruct rr as [| |header target|]; simpl in Hst; auto.
      destruct (responseEqualASCIIName tip (RR_Header.Name header)); simpl in Hst;
        [|auto].
      destruct (Z.eqb_spec (RR_Header.Class header) (Question.Qclass q0))
        as [Hclass|]; simpl in Hst; [|auto].
      apply validName_insert in Hst. destruct Hst as [<-|Hst]; [|auto].
      right. exists header, target. auto.
    + right. exists h, t. auto.
Qed.

(** The walk never makes a name valid that is neither the canonical query
    name nor the canonical target of a canonical-name record of the answer
    section in the class of the question. *)
Theorem buildChain_valid_names (q0 : Question.t) (answers : list RR)
    (n : string) :
  validName (fst (buildChain q0 answers)) n = true ->
  n = CanonicalName (Question.Name q0)
  \/ exists header target,
       In (RR_CNAME header target) answers
       /\ RR_Header.Class header = Question.Qclass q0
       /\ n = CanonicalName target.
Proof.
  intros Hn. unfold buildChain in Hn.
  apply chain_fold_names in Hn. destruct Hn as [Hn|Hn]; [|right; exact Hn].
  simpl in Hn. apply validName_insert in Hn.
  destruct Hn as [Hn|Hn]; [left; symmetry; exact Hn|].
  unfold validName in Hn. rewrite lookup_empty in Hn. discriminate.
Qed.

Lemma chain_fold_no_CNAME (q0 : Question.t) (l : list RR) :
  forall st : gmap string bool * string,
    (forall rr, In rr l -> payloadCNAME rr = None) ->
    fold_left (chainStep q0) l st = st.
Proof.
  induction l as [|rr l IH]; intros st Hall; simpl; [reflexivity|].
  assert (Hrr : chainStep q0 st rr = st).
  { pose proof (Hall rr (or_introl eq_refl)) as Hp. destruct st.
    destruct rr; try reflexivity. discriminate. }
  rewrite Hrr. apply IH. intros rr' Hin. apply Hall. right. exact Hin.
Qed.

(** In a response without canonical-name record, extraction keeps the
    answers whose canonical owner name is the canonical query name and
    whose class is the class of the question, and nothing else. *)
Theorem ResponseExtractValidAnswers_no_CNAME (q0 : Question.t)
    (resp : Msg.t) :
  (forall rr, In rr (Msg.Answer resp) -> payloadCNAME rr = None) ->
  ResponseExtractValidAnswers q0 resp
  = match List.filter
            (fun rr =>
               String.eqb (CanonicalName (RR_Header.Name (Header rr)))
                          (CanonicalName (Question.Name q0))
               && (RR_Header.Class (Header rr) =? Question.Qclass q0))
            (Msg.Answer resp) with
    | [] => Err ErrNoData
    | rr :: rrs => Ok (rr :: rrs)
    end.
Proof.
  intros Hall. rewrite ResponseExtractValidAnswers_eq.
  unfold buildChain. rewrite chain_fold_no_CNAME by exact Hall. simpl.
  rewrite (filter_ext
             (validAnswer q0 (<[responseCanonicalName (Question.Name q0) := true]> ∅))
             (fun rr =>
                String.eqb (CanonicalName (RR_Header.Name (Header rr)))
                           (CanonicalName (Question.Name q0))
                && (RR_Header.Class (Header rr) =? Question.Qclass q0))).
  - reflexivity.
  - intros rr. unfold validAnswer, responseCanonicalName. f_equal.
    destruct (String.eqb_spec (CanonicalName (RR_Header.Name (Header rr)))
                              (CanonicalName (Question.Name q0))) as [Heq|Hne].
    + apply validName_insert. left. symmetry. exact Heq.
    + destruct (validName _ _) eqn:Hv; [|reflexivity].
      apply validName_insert in Hv. destruct Hv as [Hv|Hv]; [congruence|].
      unfold validName in Hv. rewrite lookup_empty in Hv. discriminate.
Qed.


Lemma filter_filter_implied {A : Type} (f p : A -> bool) (l : list A) :
  (forall a, f a = true -> p a = true) ->
  List.filter f (List.filter p l) = List.filter f l.
Proof.
  intros Himp. induction l as [|a l IH]; simpl; [reflexivity|].
  destruct (p a) eqn:Hp; simpl.
  - rewrite IH. reflexivity.
  - destruct (f a) eqn:Hf; [|exact IH].
    rewrite (Himp a Hf) in Hp. discriminate.
Qed.


(** Answers added at the end of the answer section never take a record
    out of the result: what extraction returned before is still returned. *)
Theorem ResponseExtractValidAnswers_append (q0 : Question.t)
    (resp resp' : Msg.t) (more rrs : list RR) :
  Msg.Answer resp' = (Msg.Answer resp ++ more)%list ->
  ResponseExtractValidAnswers q0 resp = Ok rrs ->
  exists rrs' : list RR,
    ResponseExtractValidAnswers q0 resp' = Ok rrs'
    /\ forall rr, In rr rrs -> In rr rrs'.
Proof.
  intros Hans Hex. rewrite ResponseExtractValidAnswers_eq in Hex.
  assert (Hsub : forall rr, In rr rrs ->
            In rr (List.filter
                     (validAnswer q0 (fst (buildChain q0 (Msg.Answer resp'))))
                     (Msg.Answer resp'))).
  { intros rr Hin.
    destruct (List.filter _ (Msg.Answer resp)) as [|rr0 kept] eqn:Hkept;
      [discriminate|].
    injection Hex as <-. rewrite <- Hkept in Hin.
    apply filter_In in Hin. destruct Hin as [Hin Hv].
    apply filter_In. rewrite Hans. split; [apply in_or_app; left; exact Hin|].
    unfold validAnswer in *. apply andb_true_iff in Hv. destruct Hv as [Hv Hc].
    rewrite Hc, andb_true_r. rewrite buildChain_app.
    apply chain_fold_keeps. exact Hv. }
  rewrite ResponseExtractValidAnswers_eq.
  destruct (List.filter _ (Msg.Answer resp')) as [|rr0 kept'] eqn:Hkept'.
  - destruct (List.filter _ (Msg.Answer resp)) as [|rr0 kept];
      [discriminate|].
    injection Hex as <-. destruct (Hsub rr0 (or_introl eq_refl)).
  - exists (rr0 :: kept'). split; [reflexivity | exact Hsub].
Qed.

Lemma chain_fold_tips (q0 q0' : Question.t) (l : list RR) :
  Question.Qclass q0 = Question.Qclass q0' ->
  forall (names : gmap string bool) (tip tip' : string),
    responseEqualASCIIName tip tip' = true ->
    fst (fold_left (chainStep q0) l (names, tip))
    = fst (fold_left (chainStep q0') l (names, tip')).
Proof.
  intros Hclass. induction l as [|rr l IH]; intros names tip tip' Htip.
  - reflexivity.
  - destruct rr as [h a|h a|header target|h]; simpl;
      try (apply IH; exact Htip).
    rewrite (responseEqualASCIIName_trans tip tip' _ Htip), Hclass.
    destruct (responseEqualASCIIName tip (RR_Header.Name header)
              && (RR_Header.Class header =? Question.Qclass q0')).
    + apply IH. apply responseEqualASCIIName_refl.
    + apply IH. exact Htip.
Qed.

(** Extraction does not depend on the letter case of the query name, nor
    on the type asked: two questions of one class whose names the
    comparator holds equal and that have one canonical form get the same
    result from every response. *)
Theorem ResponseExtractValidAnswers_query_case (q0 q0' : Question.t)
    (resp : Msg.t) :
  responseEqualASCIIName (Question.Name q0) (Question.Name q0') = true ->
  CanonicalName (Question.Name q0) = CanonicalName (Question.Name q0') ->
  Question.Qclass q0 = Question.Qclass q0' ->
  ResponseExtractValidAnswers q0 resp = ResponseExtractValidAnswers q0' resp.
Proof.
  intros Hname Hcanon Hclass. rewrite !ResponseExtractValidAnswers_eq.
  assert (Hnames : fst (buildChain q0 (Msg.Answer resp))
                   = fst (buildChain q0' (Msg.Answer resp))).
  { unfold buildChain, responseCanonicalName. rewrite Hcanon.
    apply chain_fold_tips; assumption. }
  rewrite Hnames.
  rewrite (filter_ext (validAnswer q0 (fst (buildChain q0' (Msg.Answer resp))))
                      (validAnswer q0' (fst (buildChain q0' (Msg.Answer resp))))).
  - reflexivity.
  - intros rr. unfold validAnswer. rewrite Hclass. reflexivity.
Qed.

Section Idempotence.

(** Names the comparator holds equal have one canonical form. *)
Hypothesis CanonicalName_equal :
  forall x y : string,
    responseEqualASCIIName x y = true -> CanonicalName x = CanonicalName y.

Lemma chainStep_tip_valid (q0 : Question.t) (st : gmap string bool * string)
    (rr : RR) :
  (forall header target,
      rr = RR_CNAME header target ->
      CanonicalName (CanonicalName target) = CanonicalName target) ->
  validName (fst st) (CanonicalName (snd st)) = true ->
  validName (fst (chainStep q0 st rr)) (CanonicalName (snd (chainStep q0 st rr)))
  = true.
Proof.
  intros Hidem Hinv. destruct st as [names tip].
  destruct rr as [| |header target|]; try exact Hinv.
  simpl.
  destruct (responseEqualASCIIName tip (RR_Header.Name header)
            && (RR_Header.Class header =? Question.Qclass q0)); [|exact Hinv].
  simpl. unfold responseCanonicalName.
  rewrite (Hidem header target eq_refl).
  apply validName_insert. left. reflexivity.
Qed.

(** A record the walk follows has a valid owner name. *)
Lemma chainStep_followed_valid (q0 : Question.t)
    (st : gmap string bool * string) (rr : RR) :
  validName (fst st) (CanonicalName (snd st)) = true ->
  chainStep q0 st rr <> st ->
  validName (fst st) (CanonicalName (RR_Header.Name (Header rr))) = true
  /\ RR_Header.Class (Header rr) = Question.Qclass q0.
Proof.
  intros Hinv Hstep. destruct st as [names tip].
  destruct rr as [| |header target|]; try (exfalso; apply Hstep; reflexivity).
  simpl in *.
  destruct (responseEqualASCIIName tip (RR_Header.Name header)) eqn:Hname;
    simpl in Hstep; [|exfalso; apply Hstep; reflexivity].
  destruct (Z.eqb_spec (RR_Header.Class header) (Question.Qclass q0))
    as [Hclass|]; [|exfalso; apply Hstep; reflexivity].
  rewrite <- (CanonicalName_equal _ _ Hname). auto.
Qed.

Lemma chain_fold_kept (q0 : Question.t) (l : list RR) :
  forall (st : gmap string bool * string) (final : gmap string bool),
    (forall header target,
        In (RR_CNAME header target) l ->
        CanonicalName (CanonicalName target) = CanonicalName target) ->
    validName (fst st) (CanonicalName (snd st)) = true ->
    (forall n, validName (fst (fold_left (chainStep q0) l st)) n = true ->
               validName final n = true) ->
    fold_left (chainStep q0) (List.filter (validAnswer q0 final) l) st
    = fold_left (chainStep q0) l st.
Proof.
  induction l as [|rr l IH]; intros st final Hidem Hinv Hfinal; simpl;
    [reflexivity|].
  assert (Hinv' : validName (fst (chainStep q0 st rr))
                    (CanonicalName (snd (chainStep q0 st rr))) = true).
  { apply chainStep_tip_valid; [|exact Hinv].
    intros header target ->. apply (Hidem header target). left. reflexivity. }
  assert (Hidem' : forall header target,
             In (RR_CNAME header target) l ->
             CanonicalName (CanonicalName target) = CanonicalName target).
  { intros header target Hin. apply (Hidem header target). right. exact Hin. }
  destruct (validAnswer q0 final rr) eqn:Hv; simpl.
  - apply IH; assumption.
  - destruct (decide (chainStep q0 st rr = st)) as [Hsame|Hmoved].
    + simpl in Hfinal. rewrite Hsame in *. apply IH; assumption.
    + exfalso.
      destruct (chainStep_followed_valid q0 st rr Hinv Hmoved) as [Hname Hclass].
      unfold validAnswer, responseCanonicalName in Hv.
      rewrite Hclass, Z.eqb_refl, andb_true_r in Hv.
      rewrite Hfinal in Hv; [discriminate|].
      simpl. apply chain_fold_keeps. apply chainStep_keeps. exact Hname.
Qed.

(** Extraction is idempotent: the records it returns, taken as an answer
    section, are returned unchanged.  It holds when names the comparator
    holds equal have one canonical form and the canonical form of each
    canonical-name target is its own canonical form. *)
Theorem ResponseExtractValidAnswers_idempotent (q0 : Question.t)
    (resp resp' : Msg.t) (rrs : list RR) :
  (forall header target,
      In (RR_CNAME header target) (Msg.Answer resp) ->
      CanonicalName (CanonicalName target) = CanonicalName target) ->
  ResponseExtractValidAnswers q0 resp = Ok rrs ->
  Msg.Answer resp' = rrs ->
  ResponseExtractValidAnswers q0 resp' = Ok rrs.
Proof.
  intros Hidem Hex Hans.
  rewrite ResponseExtractValidAnswers_eq in Hex.
  rewrite ResponseExtractValidAnswers_eq, Hans.
  set (names := fst (buildChain q0 (Msg.Answer resp))) in *.
  assert (Hrrs : rrs = List.filter (validAnswer q0 names) (Msg.Answer resp)).
  { destruct (List.filter _ _); [discriminate | congruence]. }
  assert (Hwalk : buildChain q0 rrs = buildChain q0 (Msg.Answer resp)).
  { rewrite Hrrs. unfold buildChain. apply chain_fold_kept.
    - exact Hidem.
    - simpl. apply validName_insert. left. reflexivity.
    - intros n Hn. exact Hn. }
  rewrite Hwalk. fold names. rewrite Hrrs at 1.
  rewrite filter_filter_implied by auto. rewrite <- Hrrs.
  destruct rrs; [|reflexivity].
  rewrite <- Hrrs in Hex. discriminate.
Qed.

End Idempotence.

(** ** Further properties of the pipeline *)

(** For a validated response whose result code is success, the outcome of
    [ParseResponse] is the outcome of extraction alone: the lame-referral
    rule of the result-code stage only fires on responses that extraction
    rejects with the same error. *)
Theorem ParseResponse_success_code (query resp : Msg.t) (q0 : Question.t) :
  ValidateResponseForQuery query resp = Ok q0 ->
  Msg.Rcode resp = dns.RcodeSuccess ->
  ParseResponse query resp
  = match ResponseExtractValidAnswers q0 resp with
    | Ok rrs => Ok (Response.mk query resp rrs)
    | Err e => Err e
    end.
Proof.
  intros Hv Hrc. unfold ParseResponse. rewrite Hv.
  unfold ResponseErrorFromRCODE. rewrite Hrc. simpl.
  destruct (negb (Msg.Authoritative resp) && negb (Msg.RecursionAvailable resp)
            && (length (Msg.Answer resp) =? 0)%nat) eqn:Hlame; [|reflexivity].
  apply andb_true_iff in Hlame. destruct Hlame as [_ Hlen].
  apply Nat.eqb_eq in Hlen.
  rewrite ResponseExtractValidAnswers_eq.
  destruct (Msg.Answer resp); [reflexivity | discriminate].
Qed.

(** [ParseResponse] fails with one of six errors; it never returns
    [ErrCannotUnmarshalMessage] nor an error of another library. *)
Theorem ParseResponse_errors (query resp : Msg.t) (e : error) :
  ParseResponse query resp = Err e ->
  e = ErrInvalidResponse \/ e = ErrInvalidQuery \/ e = ErrNoName
  \/ e = ErrNoData \/ e = ErrServerTemporarilyMisbehaving
  \/ e = ErrServerMisbehaving.
Proof.
  unfold ParseResponse.
  pose proof (ValidateResponseForQuery_result query resp) as Hv.
  destruct (ValidateResponseForQuery query resp) as [q0|e0].
  - clear Hv. unfold ResponseErrorFromRCODE.
    destruct (Msg.Rcode resp =? dns.RcodeNameError); [intros [= <-]; auto|].
    destruct ((Msg.Rcode resp =? dns.RcodeSuccess)
              && negb (Msg.Authoritative resp)
              && negb (Msg.RecursionAvailable resp)
              && (length (Msg.Answer resp) =? 0)%nat);
      [intros [= <-]; auto 6|].
    destruct (negb (Msg.Rcode resp =? dns.RcodeSuccess)).
    + destruct (Msg.Rcode resp =? dns.RcodeServerFailure);
        intros [= <-]; auto 6.
    + rewrite ResponseExtractValidAnswers_eq.
      destruct (List.filter _ _); [intros [= <-]; auto 6 | discriminate].
  - intros [= <-]. destruct Hv as [->| ->]; auto.
Qed.

(** A response that parses was flagged as a response, carries the
    identifier of the query and the result code success, and has answers;
    each valid record is one of its answers, in the class of the question
    of the query, owned by a valid name of the walk. *)
Theorem ParseResponse_success (query resp : Msg.t) (rp : Response.t) :
  ParseResponse query resp = Ok rp ->
  Msg.Response resp = true
  /\ Msg.Id resp = Msg.Id query
  /\ Msg.Rcode resp = dns.RcodeSuccess
  /\ Msg.Answer resp <> []
  /\ exists q0 : Question.t,
       Msg.Question query = [q0]
       /\ forall rr : RR,
            In rr (Response.ValidRRs rp) ->
            In rr (Msg.Answer resp)
            /\ RR_Header.Class (Header rr) = Question.Qclass q0
            /\ validName (fst (buildChain q0 (Msg.Answer resp)))
                         (CanonicalName (RR_Header.Name (Header rr))) = true.
Proof.
  unfold ParseResponse.
  pose proof (ValidateResponseForQuery_result query resp) as Hv.
  destruct (ValidateResponseForQuery query resp) as [q0|]; [|discriminate].
  destruct Hv as (Hq & Hr & Hid & _).
  destruct (ResponseErrorFromRCODE resp) eqn:Hrc; [discriminate|].
  assert (Hcode : Msg.Rcode resp = dns.RcodeSuccess).
  { unfold ResponseErrorFromRCODE in Hrc.
    destruct (Msg.Rcode resp =? dns.RcodeNameError); [discriminate|].
    destruct (Z.eqb_spec (Msg.Rcode resp) dns.RcodeSuccess); [assumption|].
    simpl in Hrc.
    destruct (Msg.Rcode resp =? dns.RcodeServerFailure); discriminate. }
  rewrite ResponseExtractValidAnswers_eq.
  destruct (List.filter _ _) as [|rr0 kept] eqn:Hkept; [discriminate|].
  intros [= <-]. simpl.
  assert (Hin : forall rr, In rr (rr0 :: kept) ->
            In rr (Msg.Answer resp)
            /\ RR_Header.Class (Header rr) = Question.Qclass q0
            /\ validName (fst (buildChain q0 (Msg.Answer resp)))
                 (CanonicalName (RR_Header.Name (Header rr))) = true).
  { intros rr Hrr. rewrite <- Hkept in Hrr. apply filter_In in Hrr.
    destruct Hrr as [Hrr Hvalid]. unfold validAnswer in Hvalid.
    apply andb_true_iff in Hvalid. destruct Hvalid as [Hn Hc].
    apply Z.eqb_eq in Hc. auto. }
  repeat split; try assumption.
  - intros Hnil. rewrite Hnil in Hkept. discriminate.
  - exists q0. split; [exact Hq | exact Hin].
Qed.

(** ** Properties of the first canonical name *)

Lemma firstCNAMELoop_found (pre : list RR) :
  forall (header : RR_Header.t) (target : string) (post : list RR),
    (forall rr, In rr pre -> payloadCNAME rr = None) ->
    firstCNAMELoop (pre ++ RR_CNAME header target :: post) = Ok target.
Proof.
  induction pre as [|rr pre IH]; intros header target post Hpre; simpl.
  - reflexivity.
  - pose proof (Hpre rr (or_introl eq_refl)) as Hrr.
    destruct rr; try discriminate;
      apply IH; intros rr' Hin; apply Hpre; right; exact Hin.
Qed.

Lemma firstCNAMELoop_cases (rrs : list RR) :
  match firstCNAMELoop rrs with
  | Ok target =>
      exists pre header post,
        rrs = (pre ++ RR_CNAME header target :: post)%list
        /\ forall rr, In rr pre -> payloadCNAME rr = None
  | Err e => e = ErrNoData /\ forall rr, In rr rrs -> payloadCNAME rr = None
  end.
Proof.
  induction rrs as [|rr rrs IH]; simpl.
  - split; [reflexivity | intros rr []].
  - assert (Hskip : payloadCNAME rr = None ->
        match firstCNAMELoop rrs with
        | Ok target =>
            exists pre header post,
              rr :: rrs = (pre ++ RR_CNAME header target :: post)%list
              /\ forall rr', In rr' pre -> payloadCNAME rr' = None
        | Err e =>
            e = ErrNoData
            /\ forall rr', In rr' (rr :: rrs) -> payloadCNAME rr' = None
        end).
    { intros Hrr. destruct (firstCNAMELoop rrs) as [target|e].
      - destruct IH as (pre & header & post & -> & Hpre).
        exists (rr :: pre), header, post. split; [reflexivity|].
        intros rr' [<-|Hin]; [exact Hrr | apply Hpre; exact Hin].
      - destruct IH as [-> Hall]. split; [reflexivity|].
        intros rr' [<-|Hin]; [exact Hrr | apply Hall; exact Hin]. }
    destruct rr as [h a|h a|header target|h]; try (apply Hskip; reflexivity).
    exists [], header, rrs. split; [reflexivity | intros rr []].
Qed.

(** [RecordFirstCNAME] returns the target of the earliest canonical-name
    record of the valid records, as the record spells it, and fails, with
    [ErrNoData] only, exactly when there is no canonical-name record. *)
Theorem RecordFirstCNAME_spec (r : Response.t) :
  (forall target : string,
      RecordFirstCNAME r = Ok target
      <-> exists pre header post,
            Response.ValidRRs r = (pre ++ RR_CNAME header target :: post)%list
            /\ forall rr, In rr pre -> payloadCNAME rr = None)
  /\ (forall e : error,
         RecordFirstCNAME r = Err e
         <-> e = ErrNoData
             /\ forall rr, In rr (Response.ValidRRs r) -> payloadCNAME rr = None).
Proof.
  unfold RecordFirstCNAME.
  pose proof (firstCNAMELoop_cases (Response.ValidRRs r)) as Hcases.
  split.
  - intros target. split.
    + intros H. rewrite H in Hcases. exact Hcases.
    + intros (pre & header & post & -> & Hpre).
      apply firstCNAMELoop_found. exact Hpre.
  - intros e. split.
    + intros H. rewrite H in Hcases. exact Hcases.
    + intros [-> Hall].
      destruct (firstCNAMELoop (Response.ValidRRs r)) as [target|e].
      * destruct Hcases as (pre & header & post & Heq & _).
        pose proof (Hall (RR_CNAME header target)) as Hbad.
        rewrite Heq in Hbad. simpl in Hbad.
        discriminate Hbad. apply in_or_app. right. left. reflexivity.
      * destruct Hcases as [-> _]. reflexivity.
Qed.

(** ** Further properties of the query builder *)

Lemma string_of_list_ascii_dot (l : list ascii) :
  string_of_list_ascii (l ++ ["."%char])
  = String.append (string_of_list_ascii l) ".".
Proof.
  induction l as [|a l IH]; simpl; [reflexivity | rewrite IH; reflexivity].
Qed.

Lemma IsFqdn_final_dot (s : string) :
  dns.IsFqdn s = true -> exists base : string, s = String.append base ".".
Proof.
  unfold dns.IsFqdn. intros H.
  destruct (rev (list_ascii_of_string s)) as [|a before] eqn:Hrev;
    [discriminate|].
  apply andb_true_iff in H. destruct H as [Ha _].
  apply Ascii.eqb_eq in Ha. subst a.
  exists (string_of_list_ascii (rev before)).
  rewrite <- string_of_list_ascii_dot.
  rewrite <- (string_of_list_ascii_of_string s) at 1. f_equal.
  rewrite <- (rev_involutive (list_ascii_of_string s)), Hrev. reflexivity.
Qed.

(** What [NewMsg] builds: a query with the identifier of the [Query] and
    recursion desired; one question, of the type asked, in the Internet
    class, whose name ends with a dot; and one OPT record, with the size of
    the [Query], the DNSSEC bit of its flags, and no option unless padding
    is asked for. *)
Theorem NewMsg_message (q : Query.t) (msg : Msg.t) :
  NewMsg q = Ok msg ->
  Msg.Id msg = Query.ID q
  /\ Msg.Response msg = false
  /\ Msg.RecursionDesired msg = true
  /\ Msg.Rcode msg = dns.RcodeSuccess
  /\ Msg.Answer msg = []
  /\ (exists name base : string,
         Msg.Question msg = [Question.mk name (Query.Type_ q) dns.ClassINET]
         /\ name = String.append base ".")
  /\ (exists opt : OPT.t,
         Msg.Extra msg = [opt]
         /\ OPT.UDPSize opt = Query.MaxSize q
         /\ OPT.Do opt = negb (Z.land (Query.Flags q) QueryFlagDNSSec =? 0)
         /\ (Z.land (Query.Flags q) QueryFlagBlockLengthPadding = 0 ->
             OPT.Option opt = [])).
Proof.
  unfold NewMsg. destruct (ToASCII (Query.Name q)) as [punyName|]; [|discriminate].
  intros [= <-].
  assert (Hname : exists base : string,
             (if negb (dns.IsFqdn punyName) then dns.Fqdn punyName else punyName)
             = String.append base ".").
  { unfold dns.Fqdn. destruct (dns.IsFqdn punyName) eqn:Hf; simpl.
    - apply IsFqdn_final_dot. exact Hf.
    - exists punyName. reflexivity. }
  destruct Hname as [base Hbase].
  destruct (Z.eqb_spec (Z.land (Query.Flags q) QueryFlagBlockLengthPadding) 0)
    as [Hoff|Hon]; simpl.
  - repeat split; try reflexivity.
    + eexists. exists base. split; [reflexivity | exact Hbase].
    + eexists. repeat split; reflexivity.
  - repeat split; try reflexivity.
    + eexists. exists base. split; [reflexivity | exact Hbase].
    + eexists. repeat split; try reflexivity.
      intros Hoff. contradiction.
Qed.

(** A message built by [NewMsg] is never the one validation blames: no
    response to it gets [ErrInvalidQuery], and a response that is flagged,
    carries its identifier and echoes its question is accepted with that
    question. *)
Theorem NewMsg_validates (q : Query.t) (msg : Msg.t) :
  NewMsg q = Ok msg ->
  (forall resp : Msg.t,
      ValidateResponseForQuery msg resp <> Err ErrInvalidQuery)
  /\ (forall resp : Msg.t,
         Msg.Response resp = true ->
         Msg.Id resp = Query.ID q ->
         Msg.Question resp = Msg.Question msg ->
         exists q0 : Question.t,
           ValidateResponseForQuery msg resp = Ok q0
           /\ Msg.Question msg = [q0]
           /\ Question.Qtype q0 = Query.Type_ q
           /\ Question.Qclass q0 = dns.ClassINET).
Proof.
  intros Hmsg.
  assert (Hshape : Msg.Id msg = Query.ID q
                   /\ exists q0 : Question.t,
                        Msg.Question msg = [q0]
                        /\ Question.Qtype q0 = Query.Type_ q
                        /\ Question.Qclass q0 = dns.ClassINET).
  { unfold NewMsg in Hmsg.
    destruct (ToASCII (Query.Name q)) as [punyName|]; [|discriminate].
    injection Hmsg as <-.
    destruct (negb (Z.land (Query.Flags q) QueryFlagBlockLengthPadding =? 0));
      simpl; (split; [reflexivity|]); eexists; repeat split; reflexivity. }
  destruct Hshape as (Hid & q0 & Hq & Htype & Hclass).
  split.
  - intros resp. unfold ValidateResponseForQuery. rewrite Hq. simpl.
    destruct (negb (Msg.Response resp)); [discriminate|].
    destruct (negb (Msg.Id resp =? Msg.Id msg)); [discriminate|].
    destruct (negb (length (Msg.Question resp) =? 1)%nat); [discriminate|].
    destruct (Msg.Question resp) as [|resp0 ?]; [discriminate|].
    destruct (negb (responseEqualASCIIName _ _)); [discriminate|].
    destruct (negb (Question.Qclass resp0 =? Question.Qclass q0));
      [discriminate|].
    destruct (negb (Question.Qtype resp0 =? Question.Qtype q0)); discriminate.
  - intros resp Hr Hrid Hrq. exists q0.
    split; [|auto].
    unfold ValidateResponseForQuery.
    rewrite Hr, Hrid, Hid, Hrq, Hq. simpl.
    rewrite !Z.eqb_refl, responseEqualASCIIName_refl. reflexivity.
Qed.

(** A query made by [NewQuery] and built by [NewMsg] carries the
    identifier given, asks one question of the type given, and has one OPT
    record that announces the UDP size, does not ask for DNSSEC and has no
    padding. *)
Theorem NewQuery_NewMsg (id : Z) (name : string) (qtype : Z) (msg : Msg.t) :
  NewMsg (NewQuery id name qtype) = Ok msg ->
  Msg.Id msg = id
  /\ Msg.Extra msg = [OPT.mk QueryMaxResponseSizeUDP false []]
  /\ exists qname : string,
       Msg.Question msg = [Question.mk qname qtype dns.ClassINET].
Proof.
  unfold NewMsg, NewQuery. simpl.
  destruct (ToASCII name) as [punyName|]; [|discriminate].
  intros [= <-]. simpl. repeat split.
  eexists. reflexivity.
Qed.

End Codec.

(** ** The operations on the messages of the test suite *)

(** The theorem of C7 on two names that differ in case only, on two names
    of different lengths and on the empty name. *)
Lemma responseEqualASCIIName_spec_witness :
  responseEqualASCIIName "example.co." "example.co.uk." = false
  /\ responseEqualASCIIName "Example.COM." "exaMple.com." = true
  /\ responseEqualASCIIName "" "example.com." = false.
Proof.
  destruct responseEqualASCIIName_spec as (Hlen & Hsame & _ & Hempty).
  split; [|split].
  - apply Hlen. vm_compute. discriminate.
  - apply (proj2 (Hsame "Example.COM." "exaMple.com." eq_refl)).
    intros i a b Ha Hb.
    do 12 (destruct i as [|i];
           [injection Ha as <-; injection Hb as <-; vm_compute;
            first [left; reflexivity
                  | right; left; split; [split; discriminate | reflexivity]
                  | right; right; split; [split; discriminate | reflexivity]]
           |]).
    discriminate.
  - apply (Hempty "example.com."). discriminate.
Defined.

(** The theorem of C4 on the messages of [TestValidateResponseForQuery]:
    a reply that is not flagged as a response fails first, even for a query
    without question; then the identifier; then the question of the query;
    and the reply to a question returns that question. *)
Lemma ValidateResponseForQuery_order_witness :
  let query := Vectors.question 7 "example.com." in
  let resp := Vectors.reply query [] in
  let noQuestion := Msg.mk 7 false false true false 0 [] [] [] in
  let notResponse := Msg.mk 7 false false true false 0 [] [] [] in
  ValidateResponseForQuery noQuestion notResponse = Err ErrInvalidResponse
  /\ ValidateResponseForQuery noQuestion (Vectors.reply (Vectors.question 8 "example.com.") [])
     = Err ErrInvalidResponse
  /\ ValidateResponseForQuery noQuestion resp = Err ErrInvalidQuery
  /\ ValidateResponseForQuery query (Vectors.reply noQuestion [])
     = Err ErrInvalidResponse
  /\ ValidateResponseForQuery query
       (Vectors.reply (Vectors.question 7 "invalid.com.") [])
     = Err ErrInvalidResponse
  /\ ValidateResponseForQuery query resp = Ok Vectors.plainQuestion.
Proof.
  intros query resp noQuestion notResponse.
  split; [|split; [|split; [|split; [|split]]]].
  - apply (proj1 (ValidateResponseForQuery_order noQuestion notResponse)).
    reflexivity.
  - apply (proj1 (proj2 (ValidateResponseForQuery_order noQuestion
             (Vectors.reply (Vectors.question 8 "example.com.") [])))).
    + reflexivity.
    + vm_compute. discriminate.
  - apply (proj1 (proj2 (proj2 (ValidateResponseForQuery_order noQuestion resp)))).
    + reflexivity.
    + reflexivity.
    + vm_compute. discriminate.
  - apply (proj1 (proj2 (proj2 (proj2 (ValidateResponseForQuery_order query
             (Vectors.reply noQuestion [])))))).
    + reflexivity.
    + reflexivity.
    + reflexivity.
    + vm_compute. discriminate.
  - apply (proj1 (proj2 (proj2 (proj2 (proj2 (ValidateResponseForQuery_order
             query (Vectors.reply (Vectors.question 7 "invalid.com.") []))))))
           Vectors.plainQuestion
           (Question.mk "invalid.com." dns.TypeA dns.ClassINET)).
    + reflexivity.
    + reflexivity.
    + reflexivity.
    + reflexivity.
    + left. reflexivity.
  - apply (proj2 (proj2 (proj2 (proj2 (proj2 (ValidateResponseForQuery_order
             query resp)))))
           Vectors.plainQuestion Vectors.plainQuestion); reflexivity.
Defined.

(** The theorem of C5 on the responses of [TestResponseErrorFromRCODE]. *)
Lemma ResponseErrorFromRCODE_cases_witness :
  let lame := Vectors.reply (Vectors.question 7 "example.com.") [] in
  let good :=
    Msg.mk 7 true true true true dns.RcodeSuccess [Vectors.plainQuestion]
           Vectors.plainAnswers [] in
  ResponseErrorFromRCODE (Vectors.withRcode lame dns.RcodeNameError)
  = Some ErrNoName
  /\ ResponseErrorFromRCODE lame = Some ErrNoData
  /\ ResponseErrorFromRCODE (Vectors.withRcode lame dns.RcodeServerFailure)
     = Some ErrServerTemporarilyMisbehaving
  /\ ResponseErrorFromRCODE (Vectors.withRcode lame dns.RcodeRefused)
     = Some ErrServerMisbehaving
  /\ ResponseErrorFromRCODE good = None.
Proof.
  intros lame good.
  assert (Hnot : forall m : Msg.t,
             Msg.Rcode m <> dns.RcodeSuccess \/ Msg.Authoritative m = true ->
             ~ lameReferral m).
  { intros m [H|H] (Hrc & Ha & _); [exact (H Hrc) | congruence]. }
  split; [|split; [|split; [|split]]].
  - apply (proj1 (ResponseErrorFromRCODE_cases _)). reflexivity.
  - apply (proj1 (proj2 (ResponseErrorFromRCODE_cases lame))).
    + vm_compute. discriminate.
    + repeat split.
  - apply (proj1 (proj2 (proj2 (ResponseErrorFromRCODE_cases _)))).
    + vm_compute. discriminate.
    + apply Hnot. left. vm_compute. discriminate.
    + vm_compute. discriminate.
    + reflexivity.
  - apply (proj1 (proj2 (proj2 (proj2 (ResponseErrorFromRCODE_cases _))))).
    + vm_compute. discriminate.
    + apply Hnot. left. vm_compute. discriminate.
    + vm_compute. discriminate.
    + vm_compute. discriminate.
  - apply (proj2 (proj2 (proj2 (proj2 (ResponseErrorFromRCODE_cases good))))).
    + vm_compute. discriminate.
    + apply Hnot. right. reflexivity.
    + reflexivity.
Defined.

(** A record that is no canonical-name record, or whose owner the
    comparator tells apart from the tip, does not continue the chain. *)
Lemma not_continuesChain (q0 : Question.t) (tip : string) (rr : RR) :
  match rr with
  | RR_CNAME header _ =>
      responseEqualASCIIName tip (RR_Header.Name header) = false
      \/ RR_Header.Class header <> Question.Qclass q0
  | _ => True
  end ->
  ~ continuesChain q0 tip rr.
Proof.
  intros H (header & target & -> & Hname & Hclass).
  destruct H as [H|H]; [congruence | contradiction].
Qed.

(** The theorem of C1 on the chain of [ValidAnswerWithCNAMEMixedCase] and on
    a response whose canonical-name records come in the wrong order: the
    first record is followed from the query name, the early record of the
    second response is skipped for good, and the valid names of the mixed
    case chain are those of the chain started at the canonical name. *)
Lemma buildChain_walk_witness :
  buildChain dns.CanonicalName Vectors.mixedQuestion
             ([] ++ [RR_CNAME (Vectors.header "eXample.co.uk." dns.TypeCNAME)
                              "ExamPle.com."])
  = (<["example.com." := true]> (<["example.co.uk." := true]> ∅),
     "example.com.")
  /\ buildChain dns.CanonicalName Vectors.plainQuestion Vectors.lateAnswers
     = buildChain dns.CanonicalName Vectors.plainQuestion
                  (tl Vectors.lateAnswers)
  /\ validName (fst (buildChain dns.CanonicalName Vectors.plainQuestion
                                Vectors.lateAnswers)) "example.net." = false
  /\ fst (buildChain dns.CanonicalName Vectors.mixedQuestion
                     Vectors.mixedAnswers)
     = claimedValidNames dns.CanonicalName Vectors.mixedQuestion
                         Vectors.mixedAnswers.
Proof.
  split; [|split; [|split]].
  - apply (proj1 (proj2 (buildChain_walk dns.CanonicalName
                           Vectors.mixedQuestion)) []); reflexivity.
  - apply (proj1 (proj2 (proj2 (buildChain_walk dns.CanonicalName
                                  Vectors.plainQuestion))) []).
    apply not_continuesChain. left. reflexivity.
  - reflexivity.
  - apply (proj2 (proj2 (proj2 (buildChain_walk dns.CanonicalName
                                  Vectors.mixedQuestion)))).
    reflexivity.
Defined.

(** C1 as the specification words it fails for a query name that is not in
    canonical form up to letter case.  The question asks for [example.com]
    without the final dot.  The canonical-name record owned by
    [example.com.] equals the canonical query name and has the class asked,
    so a chain started at the canonical name follows it to [example.org.];
    the code compares the owner with the name as asked, which is one byte
    shorter, follows nothing, and drops the address of [example.org.]. *)
Lemma chain_start_counterexample :
  let q0 := Vectors.bareQuestion in
  let cname := RR_CNAME (Vectors.header "example.com." dns.TypeCNAME)
                        "example.org." in
  Vectors.bareAnswers
  = [cname; RR_A (Vectors.header "example.org." dns.TypeA) Vectors.loopback]
  /\ responseEqualASCIIName (RR_Header.Name (Header cname))
                            (dns.CanonicalName (Question.Name q0)) = true
  /\ RR_Header.Class (Header cname) = Question.Qclass q0
  /\ validName (claimedValidNames dns.CanonicalName q0 Vectors.bareAnswers)
               "example.org." = true
  /\ validName (fst (buildChain dns.CanonicalName q0 Vectors.bareAnswers))
               "example.org." = false
  /\ fst (buildChain dns.CanonicalName q0 Vectors.bareAnswers)
     <> claimedValidNames dns.CanonicalName q0 Vectors.bareAnswers
  /\ ResponseExtractValidAnswers dns.CanonicalName q0
       (Vectors.reply (Vectors.question 7 "example.com") Vectors.bareAnswers)
     = Ok [cname].
Proof.
  intros q0 cname.
  split; [reflexivity|]. split; [reflexivity|]. split; [reflexivity|].
  split; [reflexivity|]. split; [reflexivity|]. split; [|reflexivity].
  intros Heq.
  apply (f_equal (fun names => validName names "example.org.")) in Heq.
  vm_compute in Heq. discriminate.
Qed.

(** The theorem of C2 on the responses of [TestResponseExtractValidAnswers]:
    the chain is returned whole and in order; no answer, an answer under
    another name and an answer of another class give [ErrNoData]. *)
Lemma ResponseExtractValidAnswers_filter_witness :
  let ask := Vectors.question 7 "example.com." in
  ResponseExtractValidAnswers dns.CanonicalName Vectors.chainQuestion
    (Vectors.reply (Vectors.question 7 "example.co.uk.") Vectors.chainAnswers)
  = Ok Vectors.chainAnswers
  /\ ResponseExtractValidAnswers dns.CanonicalName Vectors.plainQuestion
       (Vectors.reply ask []) = Err ErrNoData
  /\ ResponseExtractValidAnswers dns.CanonicalName Vectors.plainQuestion
       (Vectors.reply ask Vectors.otherNameAnswers) = Err ErrNoData
  /\ ResponseExtractValidAnswers dns.CanonicalName Vectors.plainQuestion
       (Vectors.reply ask Vectors.otherClassAnswers) = Err ErrNoData.
Proof.
  intros ask. split; [|split; [|split]].
  - pose proof (ResponseExtractValidAnswers_filter dns.CanonicalName
                  Vectors.chainQuestion
                  (Vectors.reply (Vectors.question 7 "example.co.uk.")
                                 Vectors.chainAnswers)) as H.
    cbv zeta in H. destruct H as (Hkept & _).
    apply Hkept. vm_compute. discriminate.
  - pose proof (ResponseExtractValidAnswers_filter dns.CanonicalName
                  Vectors.plainQuestion (Vectors.reply ask [])) as H.
    cbv zeta in H. destruct H as (_ & _ & _ & _ & Hnone & _).
    apply Hnone. reflexivity.
  - pose proof (ResponseExtractValidAnswers_filter dns.CanonicalName
                  Vectors.plainQuestion
                  (Vectors.reply ask Vectors.otherNameAnswers)) as H.
    cbv zeta in H. destruct H as (_ & _ & _ & _ & _ & Hname & _).
    apply Hname. intros rr [<-|[]]. reflexivity.
  - pose proof (ResponseExtractValidAnswers_filter dns.CanonicalName
                  Vectors.plainQuestion
                  (Vectors.reply ask Vectors.otherClassAnswers)) as H.
    cbv zeta in H. destruct H as (_ & _ & _ & _ & _ & _ & Hclass).
    apply Hclass. intros rr [<-|[]]. vm_compute. discriminate.
Defined.

(** The theorem of C10 on a response that answers a question asked in
    capitals with a record in lower case and no canonical-name record. *)
Lemma ResponseExtractValidAnswers_query_name_witness :
  exists rrs : list RR,
    ResponseExtractValidAnswers dns.CanonicalName
      (Question.mk "EXAMPLE.COM." dns.TypeA dns.ClassINET)
      (Vectors.reply (Vectors.question 7 "EXAMPLE.COM.") Vectors.plainAnswers)
    = Ok rrs
    /\ In (RR_A (Vectors.header "example.com." dns.TypeA) Vectors.loopback) rrs
    /\ ResponseExtractValidAnswers dns.CanonicalName
         (Question.mk "EXAMPLE.COM." dns.TypeA dns.ClassINET)
         (Vectors.reply (Vectors.question 7 "EXAMPLE.COM.") Vectors.plainAnswers)
       <> Err ErrNoData.
Proof.
  apply (ResponseExtractValidAnswers_query_name dns.CanonicalName
           (Question.mk "EXAMPLE.COM." dns.TypeA dns.ClassINET)
           (Vectors.reply (Vectors.question 7 "EXAMPLE.COM.")
                          Vectors.plainAnswers)
           (RR_A (Vectors.header "example.com." dns.TypeA) Vectors.loopback)).
  - left. reflexivity.
  - reflexivity.
  - reflexivity.
Defined.

(** The theorem of C6 on the messages of [TestParseResponse]: a reply with
    another identifier fails in validation although it has no answer, a
    refused query fails on its result code, an authoritative reply without
    answer fails in extraction, and a reply with the address is parsed. *)
Lemma ParseResponse_pipeline_witness :
  let query := Vectors.question 7 "example.com." in
  let refused := Vectors.withRcode (Vectors.reply query []) dns.RcodeRefused in
  let empty :=
    Msg.mk 7 true true true true dns.RcodeSuccess [Vectors.plainQuestion]
           [] [] in
  let good := Vectors.reply query Vectors.plainAnswers in
  ParseResponse dns.CanonicalName query
    (Vectors.reply (Vectors.question 8 "example.com.") [])
  = Err ErrInvalidResponse
  /\ ParseResponse dns.CanonicalName query refused = Err ErrServerMisbehaving
  /\ ParseResponse dns.CanonicalName query empty = Err ErrNoData
  /\ ParseResponse dns.CanonicalName query good
     = Ok (Response.mk query good Vectors.plainAnswers)
  /\ Vectors.plainAnswers <> [].
Proof.
  intros query refused empty good.
  split; [|split; [|split; [|split]]].
  - destruct (ParseResponse_pipeline dns.CanonicalName query
                (Vectors.reply (Vectors.question 8 "example.com.") []))
      as (Hvalidate & _).
    apply Hvalidate. reflexivity.
  - destruct (ParseResponse_pipeline dns.CanonicalName query refused)
      as (_ & Hrcode & _).
    apply (Hrcode Vectors.plainQuestion); reflexivity.
  - destruct (ParseResponse_pipeline dns.CanonicalName query empty)
      as (_ & _ & Hextract & _).
    apply (Hextract Vectors.plainQuestion); reflexivity.
  - destruct (ParseResponse_pipeline dns.CanonicalName query good)
      as (_ & _ & _ & Hok & _).
    apply (Hok Vectors.plainQuestion); reflexivity.
  - destruct (ParseResponse_pipeline dns.CanonicalName query good)
      as (_ & _ & _ & _ & Hinv).
    apply (Hinv (Response.mk query good Vectors.plainAnswers)). reflexivity.
Defined.

(** The projections on valid records that interleave the two families, for
    any textual form of addresses: each keeps its own records, in order, and
    a response without address of a family fails for that family. *)
Example RecordsA_RecordsAAAA_interleaved (text : IP -> string) :
  RecordsA text Vectors.addresses
  = Ok [text Vectors.loopback; text Vectors.publicResolver]
  /\ RecordsAAAA text Vectors.addresses = Ok [text Vectors.documentation6]
  /\ RecordsA text Vectors.aliases = Ok [text Vectors.loopback]
  /\ RecordsAAAA text Vectors.aliases = Err ErrNoData.
Proof.
  pose proof (RecordsA_RecordsAAAA_spec text Vectors.addresses) as H.
  cbv zeta in H. destruct H as (HA & HAAAA & _).
  pose proof (RecordsA_RecordsAAAA_spec text Vectors.aliases) as H'.
  cbv zeta in H'. destruct H' as (HA' & HAAAA' & _).
  split; [exact HA|]. split; [exact HAAAA|]. split; [exact HA' | exact HAAAA'].
Qed.

(** The theorem of C8 on the records of [TestResponseRecordsCNAME] and on a
    response without canonical-name record. *)
Lemma RecordsCNAME_spec_witness :
  RecordsCNAME Vectors.aliases = Ok ["example.com."; "example.net."]
  /\ RecordsCNAME Vectors.addresses = Err ErrNoData.
Proof.
  split.
  - exact (proj1 (RecordsCNAME_spec Vectors.aliases)).
  - apply (proj2 (RecordsCNAME_spec Vectors.addresses)).
    intros rr [<-|[<-|[<-|[]]]]; reflexivity.
Defined.

(** The first target of the same records, as the sources compute it. *)
Example RecordFirstCNAME_aliases :
  RecordFirstCNAME Vectors.aliases = Ok "example.com.".
Proof. reflexivity. Qed.

(** The wire size counts an option added to the message of a query as its
    header and its data. *)
Lemma wire_Len_appendEdns0Option (q : Query.t) (msg0 : Msg.t) (opt : EDNS0.t) :
  NewMsg Vectors.asciiToASCII wire.Len (withoutPadding q) = Ok msg0 ->
  wire.Len (appendEdns0Option msg0 opt)
  = wire.Len msg0 + 4 + Z.of_nat (length (EDNS0.Data opt)).
Proof.
  unfold NewMsg, Vectors.asciiToASCII.
  destruct (withoutPadding_flags q) as [-> _].
  simpl. intros [= <-].
  unfold wire.Len, appendEdns0Option. simpl.
  unfold wire.optLen, wire.optionLen. simpl. lia.
Qed.

(** The theorem of C3 on the query of the DNS-over-TLS example: the
    message without padding takes 44 octets and the padded one 128, with 80
    zero bytes in its padding option. *)
Lemma NewMsg_block_length_padding_witness :
  exists (msg0 msg : Msg.t) (opt : OPT.t) (padding : list byte),
    NewMsg Vectors.asciiToASCII wire.Len (withoutPadding Vectors.tlsQuery)
    = Ok msg0
    /\ wire.Len msg0 = 44
    /\ NewMsg Vectors.asciiToASCII wire.Len Vectors.tlsQuery = Ok msg
    /\ dns.IsEdns0 msg = Some opt
    /\ OPT.Option opt = [EDNS0_PADDING padding]
    /\ Z.of_nat (length padding) = 80
    /\ wire.Len msg = 128.
Proof.
  destruct (NewMsg Vectors.asciiToASCII wire.Len
              (withoutPadding Vectors.tlsQuery)) as [msg0|] eqn:Hbase;
    [|discriminate].
  assert (Hlen : wire.Len msg0 = 44).
  { vm_compute in Hbase. injection Hbase as <-. reflexivity. }
  destruct (NewMsg_block_length_padding Vectors.asciiToASCII wire.Len
              Vectors.tlsQuery msg0)
    as (msg & opt & padding & Hmsg & Hopt & Hoption & Hsize & _ & Hfinal & _).
  - vm_compute. discriminate.
  - exact Hbase.
  - intros o. apply (wire_Len_appendEdns0Option Vectors.tlsQuery). exact Hbase.
  - exists msg0, msg, opt, padding.
    rewrite Hlen in Hsize, Hfinal.
    repeat (split; [first [reflexivity | assumption]|]).
    exact Hfinal.
Defined.

(** ** The canonical form of the library and the comparator *)

Lemma lowerByte_keeps_dot (a : ascii) :
  Ascii.eqb (dns.lowerByte a) "."%char = Ascii.eqb a "."%char.
Proof.
  destruct a as [[] [] [] [] [] [] [] []]; reflexivity.
Qed.

Lemma lowerByte_keeps_backslash (a : ascii) :
  Ascii.eqb (dns.lowerByte a) "\"%char = Ascii.eqb a "\"%char.
Proof.
  destruct a as [[] [] [] [] [] [] [] []]; reflexivity.
Qed.

Lemma list_ascii_of_mapBytes (f : ascii -> ascii) (s : string) :
  list_ascii_of_string (dns.mapBytes f s) = map f (list_ascii_of_string s).
Proof.
  induction s as [|a s IH]; simpl; [reflexivity | rewrite IH; reflexivity].
Qed.

Lemma leadingBackslashes_lower (l : list ascii) :
  dns.leadingBackslashes (map dns.lowerByte l) = dns.leadingBackslashes l.
Proof.
  induction l as [|a l IH]; simpl; [reflexivity|].
  rewrite lowerByte_keeps_backslash, IH. reflexivity.
Qed.

(** Lower-casing a name does not change whether it is fully qualified. *)
Lemma IsFqdn_lower (s : string) :
  dns.IsFqdn (dns.mapBytes dns.lowerByte s) = dns.IsFqdn s.
Proof.
  unfold dns.IsFqdn. rewrite list_ascii_of_mapBytes, <- map_rev.
  destruct (rev (list_ascii_of_string s)) as [|a before]; simpl;
    [reflexivity|].
  rewrite lowerByte_keeps_dot, leadingBackslashes_lower. reflexivity.
Qed.

Lemma mapBytes_append_dot (s : string) :
  dns.mapBytes dns.lowerByte (String.append s ".")
  = String.append (dns.mapBytes dns.lowerByte s) ".".
Proof.
  induction s as [|a s IH]; simpl; [reflexivity | rewrite IH; reflexivity].
Qed.

(** *** The decoder of runes *)

Lemma leading_second (v : Z) :
  fst (dns.leading v) = 0%nat \/ 128 <= fst (snd (dns.leading v)).
Proof.
  unfold dns.leading.
  repeat match goal with
         | |- context [if ?b then _ else _] => destruct b
         end; simpl; first [left; reflexivity | right; lia].
Qed.

Lemma inRange_high (lo hi : Z) (a : ascii) :
  128 <= lo -> dns.inRange lo hi a = true -> 128 <= dns.byteval a.
Proof.
  unfold dns.inRange. intros Hlo H. apply andb_true_iff in H.
  destruct H as [H _]. apply Z.leb_le in H. lia.
Qed.

(** What each width says of the bytes at the head of the string. *)
Lemma runeWidth_shape (s0 : ascii) (t : string) :
  match dns.runeWidth (String s0 t) with
  | 0%nat => 128 <= dns.byteval s0
  | 1%nat => dns.byteval s0 < 128
  | 2%nat =>
      128 <= dns.byteval s0
      /\ exists s1 t1, t = String s1 t1 /\ 128 <= dns.byteval s1
  | 3%nat =>
      128 <= dns.byteval s0
      /\ exists s1 s2 t2,
           t = String s1 (String s2 t2)
           /\ 128 <= dns.byteval s1 /\ 128 <= dns.byteval s2
  | 4%nat =>
      128 <= dns.byteval s0
      /\ exists s1 s2 s3 t3,
           t = String s1 (String s2 (String s3 t3))
           /\ 128 <= dns.byteval s1 /\ 128 <= dns.byteval s2
           /\ 128 <= dns.byteval s3
  | _ => False
  end.
Proof.
  unfold dns.runeWidth.
  destruct (Z.ltb_spec (dns.byteval s0) 128) as [Hlow|Hhigh]; [exact Hlow|].
  pose proof (leading_second (dns.byteval s0)) as Hlo.
  destruct (dns.leading (dns.byteval s0)) as [sz [lo hi]]. simpl in Hlo.
  destruct sz as [|[|[|[|[|sz]]]]]; try exact Hhigh;
    destruct Hlo as [Hlo|Hlo]; try discriminate Hlo;
    destruct t as [|s1 [|s2 [|s3 t3]]]; try exact Hhigh;
    repeat match goal with
           | |- context [dns.inRange ?l ?h ?a] =>
               let H := fresh "Hin" in
               destruct (dns.inRange l h a) eqn:H; simpl;
               [apply inRange_high in H; [|lia] |]
           end;
    try exact Hhigh; (split; [exact Hhigh|]); eauto 10.
Qed.

(** Induction along the runes of a string. *)
Lemma rune_induction (P : string -> Prop) :
  P EmptyString ->
  (forall s0 t, dns.byteval s0 < 128 -> P t -> P (String s0 t)) ->
  (forall s0 t,
      128 <= dns.byteval s0 -> dns.runeWidth (String s0 t) = 0%nat ->
      P t -> P (String s0 t)) ->
  (forall s0 s1 t,
      128 <= dns.byteval s0 -> 128 <= dns.byteval s1 ->
      dns.runeWidth (String s0 (String s1 t)) = 2%nat ->
      P t -> P (String s0 (String s1 t))) ->
  (forall s0 s1 s2 t,
      128 <= dns.byteval s0 -> 128 <= dns.byteval s1 ->
      128 <= dns.byteval s2 ->
      dns.runeWidth (String s0 (String s1 (String s2 t))) = 3%nat ->
      P t -> P (String s0 (String s1 (String s2 t)))) ->
  (forall s0 s1 s2 s3 t,
      128 <= dns.byteval s0 -> 128 <= dns.byteval s1 ->
      128 <= dns.byteval s2 -> 128 <= dns.byteval s3 ->
      dns.runeWidth (String s0 (String s1 (String s2 (String s3 t)))) = 4%nat ->
      P t -> P (String s0 (String s1 (String s2 (String s3 t))))) ->
  forall s, P s.
Proof.
  intros Hnil H1 H0 H2 H3 H4 s.
  assert (Hall : forall n s, (String.length s <= n)%nat -> P s).
  { clear s. induction n as [|n IH]; intros s Hlen.
    - destruct s; [exact Hnil | simpl in Hlen; lia].
    - destruct s as [|s0 t]; [exact Hnil|]. simpl in Hlen.
      pose proof (runeWidth_shape s0 t) as Hshape.
      destruct (dns.runeWidth (String s0 t)) as [|[|[|[|[|w]]]]] eqn:Hw.
      + apply H0; [exact Hshape | exact Hw | apply IH; lia].
      + apply H1; [exact Hshape | apply IH; lia].
      + destruct Hshape as (Hs0 & s1 & t1 & -> & Hs1).
        apply H2; try assumption. apply IH. simpl in Hlen. lia.
      + destruct Hshape as (Hs0 & s1 & s2 & t2 & -> & Hs1 & Hs2).
        apply H3; try assumption. apply IH. simpl in Hlen. lia.
      + destruct Hshape as (Hs0 & s1 & s2 & s3 & t3 & -> & Hs1 & Hs2 & Hs3).
        apply H4; try assumption. apply IH. simpl in Hlen. lia.
      + destruct Hshape. }
  apply (Hall (String.length s)). lia.
Qed.

Lemma runeWidth_ascii (s0 : ascii) (t : string) :
  dns.byteval s0 < 128 -> dns.runeWidth (String s0 t) = 1%nat.
Proof.
  intros H. unfold dns.runeWidth.
  destruct (Z.ltb_spec (dns.byteval s0) 128); [reflexivity | lia].
Qed.

Lemma lowerByte_high (a : ascii) :
  128 <= dns.byteval a -> dns.lowerByte a = a.
Proof.
  intros H. unfold dns.lowerByte.
  destruct (Z.leb_spec (dns.byteval a) 90); [lia|].
  rewrite andb_false_r. reflexivity.
Qed.

Lemma lowerByte_low (a : ascii) :
  dns.byteval a < 128 -> dns.byteval (dns.lowerByte a) < 128.
Proof.
  intros H. rewrite byteval_lowerByte. pose proof (byteval_range a) as Hr.
  destruct (Z_le_dec 65 (dns.byteval a)); destruct (Z_le_dec (dns.byteval a) 90);
    try (rewrite foldByte_other by lia; exact H).
  rewrite foldByte_letter by lia. lia.
Qed.

Lemma inRange_lower (lo hi : Z) (a : ascii) :
  128 <= lo -> dns.inRange lo hi (dns.lowerByte a) = dns.inRange lo hi a.
Proof.
  intros Hlo. destruct (Z_lt_dec (dns.byteval a) 128) as [Hlow|Hhigh].
  - pose proof (lowerByte_low a Hlow) as Hl. unfold dns.inRange.
    destruct (Z.leb_spec lo (dns.byteval (dns.lowerByte a))); [lia|].
    destruct (Z.leb_spec lo (dns.byteval a)); [lia|]. reflexivity.
  - rewrite lowerByte_high by lia. reflexivity.
Qed.

(** The case of the ASCII letters does not change how a string splits into
    runes. *)
Lemma runeWidth_lower (s : string) :
  dns.runeWidth (dns.mapBytes dns.lowerByte s) = dns.runeWidth s.
Proof.
  destruct s as [|s0 t]; [reflexivity|].
  destruct (Z_lt_dec (dns.byteval s0) 128) as [Hlow|Hhigh].
  - simpl dns.mapBytes.
    rewrite !runeWidth_ascii; auto using lowerByte_low.
  - simpl dns.mapBytes. rewrite (lowerByte_high s0) by lia.
    unfold dns.runeWidth.
    destruct (dns.byteval s0 <? 128); [reflexivity|].
    pose proof (leading_second (dns.byteval s0)) as Hlo.
    destruct (dns.leading (dns.byteval s0)) as [sz [lo hi]]. simpl in Hlo.
    destruct sz as [|[|[|[|[|sz]]]]];
      destruct t as [|s1 [|s2 [|s3 t3]]]; try reflexivity;
      destruct Hlo as [Hlo|Hlo]; try discriminate Hlo;
      cbn [dns.mapBytes]; rewrite ?inRange_lower by lia; reflexivity.
Qed.

Ltac rune_step H :=
  cbn [dns.lowerRunes dns.ValidString]; rewrite ?H;
  cbn [dns.lowerRunes dns.ValidString].

(** Lower-casing the bytes [A]-[Z] first does not change the result of
    lower-casing the runes. *)
Lemma lowerRunes_lower (s : string) :
  dns.lowerRunes (dns.mapBytes dns.lowerByte s) = dns.lowerRunes s.
Proof.
  induction s as [|s0 t Hs0 IH|s0 t Hs0 Hw IH|s0 s1 t Hs0 Hs1 Hw IH
                  |s0 s1 s2 t Hs0 Hs1 Hs2 Hw IH
                  |s0 s1 s2 s3 t Hs0 Hs1 Hs2 Hs3 Hw IH] using rune_induction.
  - reflexivity.
  - pose proof (runeWidth_ascii s0 t Hs0) as Hw.
    pose proof (runeWidth_ascii (dns.lowerByte s0)
                  (dns.mapBytes dns.lowerByte t) (lowerByte_low s0 Hs0)) as Hw'.
    simpl dns.mapBytes. rune_step Hw'. rune_step Hw.
    rewrite lowerByte_idempotent, IH. reflexivity.
  - pose proof (runeWidth_lower (String s0 t)) as Hw'. rewrite Hw in Hw'.
    simpl dns.mapBytes in *. rune_step Hw'. rune_step Hw.
    rewrite IH. reflexivity.
  - pose proof (runeWidth_lower (String s0 (String s1 t))) as Hw'.
    rewrite Hw in Hw'. simpl dns.mapBytes in *.
    rewrite (lowerByte_high s0), (lowerByte_high s1) in * by lia.
    rune_step Hw'. rune_step Hw. rewrite IH. reflexivity.
  - pose proof (runeWidth_lower (String s0 (String s1 (String s2 t)))) as Hw'.
    rewrite Hw in Hw'. simpl dns.mapBytes in *.
    rewrite (lowerByte_high s0), (lowerByte_high s1), (lowerByte_high s2)
      in * by lia.
    rune_step Hw'. rune_step Hw. rewrite IH. reflexivity.
  - pose proof (runeWidth_lower
                  (String s0 (String s1 (String s2 (String s3 t))))) as Hw'.
    rewrite Hw in Hw'. simpl dns.mapBytes in *.
    rewrite (lowerByte_high s0), (lowerByte_high s1), (lowerByte_high s2),
      (lowerByte_high s3) in * by lia.
    rune_step Hw'. rune_step Hw. rewrite IH. reflexivity.
Qed.

(** Names the comparator holds equal have one canonical form. *)
Lemma CanonicalName_of_equal (x y : string) :
  responseEqualASCIIName x y = true ->
  dns.CanonicalName x = dns.CanonicalName y.
Proof.
  intros H. apply responseEqualASCIIName_mapBytes in H.
  assert (Hf : dns.IsFqdn x = dns.IsFqdn y).
  { rewrite <- (IsFqdn_lower x), <- (IsFqdn_lower y), H. reflexivity. }
  unfold dns.CanonicalName, dns.Fqdn. rewrite <- Hf.
  destruct (dns.IsFqdn x).
  - rewrite <- (lowerRunes_lower x), <- (lowerRunes_lower y), H. reflexivity.
  - rewrite <- (lowerRunes_lower (String.append x ".")),
      <- (lowerRunes_lower (String.append y ".")).
    rewrite !mapBytes_append_dot, H. reflexivity.
Qed.







(** A fully-qualified name with a malformed byte: the canonical form has
    the replacement rune in its place and the comparator tells the two
    apart. *)
Example CanonicalName_malformed :
  let name := String (ascii_of_N 255) "." in
  dns.IsFqdn name = true
  /\ dns.CanonicalName name = String.append dns.RuneError "."
  /\ responseEqualASCIIName (dns.CanonicalName name) name = false.
Proof. repeat split. Qed.

(** Runes beyond ASCII are kept as they are, also capital letters, and a
    sequence cut short or with a second byte out of range is replaced byte
    by byte. *)
Example CanonicalName_runes :
  let A_umlaut := String (ascii_of_N 195) (String (ascii_of_N 132) "") in
  let cut := String (ascii_of_N 225) (String (ascii_of_N 128) "") in
  let surrogate :=
    String (ascii_of_N 237) (String (ascii_of_N 160)
      (String (ascii_of_N 128) "")) in
  dns.CanonicalName (String.append A_umlaut "B")
  = String.append A_umlaut "b."
  /\ dns.CanonicalName cut
     = String.append dns.RuneError (String.append dns.RuneError ".")
  /\ dns.CanonicalName surrogate
     = String.append dns.RuneError
         (String.append dns.RuneError (String.append dns.RuneError ".")).
Proof. repeat split. Qed.

(** ** The further properties on the messages of the test suite *)

Lemma buildChain_valid_names_witness :
  "example.org." = dns.CanonicalName (Question.Name Vectors.chainQuestion)
  \/ exists header target,
       In (RR_CNAME header target) Vectors.chainAnswers
       /\ RR_Header.Class header = Question.Qclass Vectors.chainQuestion
       /\ "example.org." = dns.CanonicalName target.
Proof.
  apply (buildChain_valid_names dns.CanonicalName Vectors.chainQuestion
           Vectors.chainAnswers "example.org.").
  reflexivity.
Defined.

Lemma ResponseExtractValidAnswers_no_CNAME_witness :
  ResponseExtractValidAnswers dns.CanonicalName Vectors.plainQuestion
    (Vectors.reply (Vectors.question 7 "example.com.")
       (Vectors.otherNameAnswers ++ Vectors.plainAnswers))
  = Ok Vectors.plainAnswers.
Proof.
  rewrite (ResponseExtractValidAnswers_no_CNAME dns.CanonicalName).
  - reflexivity.
  - intros rr [<-|[<-|[]]]; reflexivity.
Defined.


Lemma ResponseExtractValidAnswers_append_witness :
  let ask := Vectors.question 7 "example.co.uk." in
  exists rrs' : list RR,
    ResponseExtractValidAnswers dns.CanonicalName Vectors.chainQuestion
      (Vectors.reply ask Vectors.chainAnswers) = Ok rrs'
    /\ forall rr, In rr (firstn 2 Vectors.chainAnswers) -> In rr rrs'.
Proof.
  intros ask.
  apply (ResponseExtractValidAnswers_append dns.CanonicalName
           Vectors.chainQuestion
           (Vectors.reply ask (firstn 2 Vectors.chainAnswers))
           (Vectors.reply ask Vectors.chainAnswers)
           (skipn 2 Vectors.chainAnswers)).
  - reflexivity.
  - reflexivity.
Defined.

Lemma ResponseExtractValidAnswers_query_case_witness :
  let resp :=
    Vectors.reply (Vectors.question 7 "Example.CO.UK.") Vectors.mixedAnswers in
  ResponseExtractValidAnswers dns.CanonicalName Vectors.mixedQuestion resp
  = ResponseExtractValidAnswers dns.CanonicalName Vectors.chainQuestion resp.
Proof.
  intros resp.
  apply (ResponseExtractValidAnswers_query_case dns.CanonicalName);
    reflexivity.
Defined.

Lemma ResponseExtractValidAnswers_idempotent_witness :
  let ask := Vectors.question 7 "example.com." in
  ResponseExtractValidAnswers dns.CanonicalName Vectors.plainQuestion
    (Vectors.reply ask (firstn 2 Vectors.lateAnswers))
  = Ok (firstn 2 Vectors.lateAnswers).
Proof.
  intros ask.
  apply (ResponseExtractValidAnswers_idempotent dns.CanonicalName
           CanonicalName_of_equal Vectors.plainQuestion
           (Vectors.reply ask Vectors.lateAnswers)).
  - intros header target [H|[H|[H|[]]]]; try discriminate H;
      injection H as _ <-; reflexivity.
  - reflexivity.
  - reflexivity.
Defined.

Lemma ParseResponse_success_code_witness :
  let query := Vectors.question 7 "example.com." in
  ParseResponse dns.CanonicalName query (Vectors.reply query [])
  = Err ErrNoData.
Proof.
  intros query.
  rewrite (ParseResponse_success_code dns.CanonicalName query
             (Vectors.reply query []) Vectors.plainQuestion);
    reflexivity.
Defined.

Lemma ParseResponse_errors_witness :
  ErrServerMisbehaving = ErrInvalidResponse
  \/ ErrServerMisbehaving = ErrInvalidQuery
  \/ ErrServerMisbehaving = ErrNoName
  \/ ErrServerMisbehaving = ErrNoData
  \/ ErrServerMisbehaving = ErrServerTemporarilyMisbehaving
  \/ ErrServerMisbehaving = ErrServerMisbehaving.
Proof.
  apply (ParseResponse_errors dns.CanonicalName
           (Vectors.question 7 "example.com.")
           (Vectors.withRcode
              (Vectors.reply (Vectors.question 7 "example.com.") [])
              dns.RcodeRefused)).
  reflexivity.
Defined.

Lemma ParseResponse_success_witness :
  let query := Vectors.question 7 "example.co.uk." in
  let resp := Vectors.reply query Vectors.chainAnswers in
  Msg.Response resp = true
  /\ Msg.Id resp = Msg.Id query
  /\ Msg.Rcode resp = dns.RcodeSuccess
  /\ Msg.Answer resp <> []
  /\ exists q0 : Question.t,
       Msg.Question query = [q0]
       /\ forall rr : RR,
            In rr Vectors.chainAnswers ->
            In rr (Msg.Answer resp)
            /\ RR_Header.Class (Header rr) = Question.Qclass q0
            /\ validName
                 (fst (buildChain dns.CanonicalName q0 (Msg.Answer resp)))
                 (dns.CanonicalName (RR_Header.Name (Header rr))) = true.
Proof.
  intros query resp.
  apply (ParseResponse_success dns.CanonicalName query resp
           (Response.mk query resp Vectors.chainAnswers)).
  reflexivity.
Defined.

Lemma NewMsg_message_witness :
  exists msg : Msg.t,
    NewMsg Vectors.asciiToASCII wire.Len Vectors.tlsQuery = Ok msg
    /\ Msg.Id msg = 37
    /\ Msg.Question msg
       = [Question.mk "www.example.com." dns.TypeA dns.ClassINET]
    /\ exists opt : OPT.t,
         Msg.Extra msg = [opt] /\ OPT.UDPSize opt = 4096 /\ OPT.Do opt = true.
Proof.
  destruct (NewMsg Vectors.asciiToASCII wire.Len Vectors.tlsQuery)
    as [msg|] eqn:Hmsg; [|discriminate].
  exists msg. split; [reflexivity|].
  destruct (NewMsg_message Vectors.asciiToASCII wire.Len Vectors.tlsQuery
              msg Hmsg)
    as (Hid & _ & _ & _ & _ & _ & opt & Hextra & Hsize & Hdo & _).
  split; [exact Hid|].
  split; [vm_compute in Hmsg; injection Hmsg as <-; reflexivity|].
  exists opt. auto.
Defined.

Lemma NewMsg_validates_witness :
  exists msg : Msg.t,
    NewMsg Vectors.asciiToASCII wire.Len Vectors.tlsQuery = Ok msg
    /\ forall resp : Msg.t,
         ValidateResponseForQuery msg resp <> Err ErrInvalidQuery.
Proof.
  destruct (NewMsg Vectors.asciiToASCII wire.Len Vectors.tlsQuery)
    as [msg|] eqn:Hmsg; [|discriminate].
  exists msg. split; [reflexivity|].
  exact (proj1 (NewMsg_validates Vectors.asciiToASCII wire.Len
                  Vectors.tlsQuery msg Hmsg)).
Defined.

Lemma NewQuery_NewMsg_witness :
  exists msg : Msg.t,
    NewMsg Vectors.asciiToASCII wire.Len (NewQuery 37 "www.example.com" dns.TypeA)
    = Ok msg
    /\ Msg.Id msg = 37
    /\ Msg.Extra msg = [OPT.mk QueryMaxResponseSizeUDP false []]
    /\ exists qname : string,
         Msg.Question msg = [Question.mk qname dns.TypeA dns.ClassINET].
Proof.
  destruct (NewMsg Vectors.asciiToASCII wire.Len
              (NewQuery 37 "www.example.com" dns.TypeA))
    as [msg|] eqn:Hmsg; [|discriminate].
  exists msg. split; [reflexivity|].
  exact (NewQuery_NewMsg Vectors.asciiToASCII wire.Len 37 "www.example.com"
           dns.TypeA msg Hmsg).
Defined.
